(** * Coupon management: the coupon selection engine

    A shallow embedding of the JavaScript sources

      - models/coupon.js            (class Coupon: constructor, validate)
      - services/discountService.js (DiscountService)
      - services/eligibilityService.js (EligibilityService)
      - services/couponService.js   (CouponService)
      - routes/coupons.js           (the in-memory store and the handlers)

    Conventions of the embedding.

      - A JavaScript number is a rational [Q]: arithmetic is exact, and
        [!==] on numbers is the negation of [Qeq_bool].  Rounding, NaN and
        the infinities of IEEE doubles are outside the model.
      - An optional property ([undefined] or [null]) is an [option].
      - A date property is kept as the time value ([Z], milliseconds) that
        [new Date(s).getTime()] gives for it; the current instant
        [new Date()] is an explicit argument [now].
      - [Logger] calls only write to the console and are left out.
      - [String.prototype.localeCompare] is implementation-defined: it is
        an explicit argument of the functions that call it. *)

From Stdlib Require Import QArith Qminmax Lqa ZArith List Bool Lia Ascii String.
From Stdlib Require Import Sorting.Sorted Sorting.Permutation.
From stdpp Require Import gmap strings.

Import ListNotations.
Local Open Scope string_scope.

(** ** JavaScript primitives used by the sources *)

Module Js.

(** [x || null] on an optional number: [undefined], [null] and [0] are
    falsy. *)
Definition orNull (x : option Q) : option Q :=
  match x with
  | Some q => if Qeq_bool q 0 then None else Some q
  | None => None
  end.

(** [a < b], [a > b], [a <= b], [a >= b] on numbers. *)
Definition lt (a b : Q) : bool := negb (Qle_bool b a).
Definition gt (a b : Q) : bool := lt b a.
Definition ge (a b : Q) : bool := Qle_bool b a.

(** The same where the left operand may be [undefined]: the comparison
    with [NaN] is [false]. *)
Definition lt_undef (a : option Q) (b : Q) : bool :=
  match a with Some x => lt x b | None => false end.
Definition gt_undef (a : option Q) (b : Q) : bool :=
  match a with Some x => gt x b | None => false end.

(** [Array.prototype.includes] on an array of strings. *)
Definition includes (l : list string) (s : string) : bool :=
  existsb (String.eqb s) l.

(** [Array.prototype.some]. *)
Definition some {A} (f : A -> bool) (l : list A) : bool := existsb f l.

(** [Array.prototype.reduce] with an initial value: a left fold. *)
Definition reduce {A B} (f : B -> A -> B) (init : B) (l : list A) : B :=
  fold_left f l init.

(** [String.prototype.toLowerCase], on the ASCII letters; bytes outside
    [A-Z] are kept. *)
Definition toLowerCaseChar (c : ascii) : ascii :=
  let n := nat_of_ascii c in
  if (65 <=? n)%nat && (n <=? 90)%nat then ascii_of_nat (n + 32) else c.

Fixpoint toLowerCase (s : string) : string :=
  match s with
  | EmptyString => EmptyString
  | String c s' => String (toLowerCaseChar c) (toLowerCase s')
  end.

(** [s.trim() === ''] : every character is white space. *)
Definition isWhiteSpace (c : ascii) : bool :=
  let n := nat_of_ascii c in
  (n =? 32)%nat || ((9 <=? n)%nat && (n <=? 13)%nat).

Fixpoint isBlank (s : string) : bool :=
  match s with
  | EmptyString => true
  | String c s' => isWhiteSpace c && isBlank s'
  end.

(** [Array.prototype.sort(compareFn)]: a stable sort; [compareFn a b]
    is a number and only its sign is used ([<= 0] keeps [a] first).
    The result of a stable sort under a consistent comparator is unique,
    so insertion from the right stands for the engine's algorithm. *)
Section Sort.
Context {A : Type} (compareFn : A -> A -> Q).

Fixpoint insert (x : A) (l : list A) : list A :=
  match l with
  | [] => [x]
  | y :: l' =>
      if Qle_bool (compareFn x y) 0 then x :: y :: l'
      else y :: insert x l'
  end.

Definition sort (l : list A) : list A := fold_right insert [] l.
End Sort.

End Js.

(** ** models/coupon.js *)

Record Eligibility := {
  allowedUserTiers : option (list string);
  minLifetimeSpend : option Q;
  minOrdersPlaced : option Q;
  firstOrderOnly : option bool;
  allowedCountries : option (list string);
  minCartValue : option Q;
  applicableCategories : option (list string);
  excludedCategories : option (list string);
  minItemsCount : option Q
}.

(** The empty object [{}]. *)
Definition noEligibility : Eligibility :=
  {| allowedUserTiers := None; minLifetimeSpend := None;
     minOrdersPlaced := None; firstOrderOnly := None;
     allowedCountries := None; minCartValue := None;
     applicableCategories := None; excludedCategories := None;
     minItemsCount := None |}.

(** The request body of [POST /coupons]. *)
Record CouponData := {
  d_code : string;
  d_description : string;
  d_discountType : string;
  d_discountValue : Q;
  d_maxDiscountAmount : option Q;
  d_startDate : Z;
  d_endDate : Z;
  d_usageLimitPerUser : option Q;
  d_eligibility : option Eligibility
}.

Record Coupon := {
  code : string;
  description : string;
  discountType : string;
  discountValue : Q;
  maxDiscountAmount : option Q;
  startDate : Z;
  endDate : Z;
  usageLimitPerUser : option Q;
  eligibility : Eligibility
}.

Module CouponModel.

(** [Coupon.normalizeEligibility] *)
Definition normalizeEligibility (e : Eligibility) : Eligibility :=
  {| allowedUserTiers := allowedUserTiers e;
     minLifetimeSpend := minLifetimeSpend e;
     minOrdersPlaced := minOrdersPlaced e;
     firstOrderOnly := firstOrderOnly e;
     allowedCountries := allowedCountries e;
     minCartValue := minCartValue e;
     applicableCategories :=
       option_map (List.map Js.toLowerCase) (applicableCategories e);
     excludedCategories :=
       option_map (List.map Js.toLowerCase) (excludedCategories e);
     minItemsCount := minItemsCount e |}.

(** [new Coupon(data)] *)
Definition new (data : CouponData) : Coupon :=
  {| code := d_code data;
     description := d_description data;
     discountType := d_discountType data;
     discountValue := d_discountValue data;
     maxDiscountAmount := Js.orNull (d_maxDiscountAmount data);
     startDate := d_startDate data;
     endDate := d_endDate data;
     usageLimitPerUser := Js.orNull (d_usageLimitPerUser data);
     eligibility :=
       normalizeEligibility
         (match d_eligibility data with
          | Some e => e
          | None => noEligibility
          end) |}.

(** One check of [Coupon.validate]: the message when the test fires. *)
Definition check (failed : bool) (msg : string) : list string :=
  if failed then [msg] else [].

Definition negative (x : option Q) : bool :=
  match x with Some q => Js.lt q 0 | None => false end.

(** [Coupon.validate(couponData)]: the list of error messages (the
    message about [discountType] is written here without its inner quote
    marks).  The [typeof] tests and the date-parsing tests are decided by
    the types of [CouponData]. *)
Definition validate (couponData : CouponData) : list string :=
  (if String.eqb (d_code couponData) "" then
     ["code is required and must be a string"]
   else check (Js.isBlank (d_code couponData)) "code cannot be empty")
  ++ check (String.eqb (d_description couponData) "")
       "description is required and must be a string"
  ++ check (negb (Js.includes ["FLAT"; "PERCENT"] (d_discountType couponData)))
       "discountType is required and must be FLAT or PERCENT"
  ++ check (Qle_bool (d_discountValue couponData) 0)
       "discountValue is required and must be a positive number"
  ++ check (match d_maxDiscountAmount couponData with
            | Some m => Qle_bool m 0
            | None => false
            end)
       "maxDiscountAmount must be a positive number if provided"
  ++ check (Z.gtb (d_startDate couponData) (d_endDate couponData))
       "startDate must be before or equal to endDate"
  ++ check (negative (d_usageLimitPerUser couponData))
       "usageLimitPerUser must be a non-negative number if provided"
  ++ match d_eligibility couponData with
     | Some e =>
         check (negative (minLifetimeSpend e))
           "eligibility.minLifetimeSpend must be a non-negative number if provided"
         ++ check (negative (minOrdersPlaced e))
           "eligibility.minOrdersPlaced must be a non-negative number if provided"
         ++ check (negative (minCartValue e))
           "eligibility.minCartValue must be a non-negative number if provided"
         ++ check (negative (minItemsCount e))
           "eligibility.minItemsCount must be a non-negative number if provided"
     | None => []
     end.

End CouponModel.

(** ** Request data of [POST /coupons/best] *)

Record UserContext := {
  userId : string;
  userTier : string;
  country : string;
  lifetimeSpend : option Q;
  ordersPlaced : option Q
}.

Record Item := {
  productId : string;
  category : string;
  unitPrice : Q;
  quantity : Q
}.

Record Cart := { items : option (list Item) }.

(** [cart.items || []] *)
Definition itemsOf (cart : Cart) : list Item :=
  match items cart with Some l => l | None => [] end.

(** ** services/discountService.js *)

Module DiscountService.

(** [DiscountService.getCartValue] *)
Definition getCartValue (cart : Cart) : Q :=
  Js.reduce (fun sum item => sum + unitPrice item * quantity item)%Q 0%Q
    (itemsOf cart).

(** [DiscountService.calculateDiscount] *)
Definition calculateDiscount (coupon : Coupon) (cart : Cart) : Q :=
  let items := itemsOf cart in
  let cartValue :=
    Js.reduce (fun sum item => sum + unitPrice item * quantity item)%Q 0%Q
      items in
  let discount :=
    if String.eqb (discountType coupon) "FLAT" then discountValue coupon
    else if String.eqb (discountType coupon) "PERCENT" then
      let discount := (cartValue * discountValue coupon / 100)%Q in
      match maxDiscountAmount coupon with
      | Some cap => Qmin discount cap
      | None => discount
      end
    else 0%Q in
  Qmin discount cartValue.

End DiscountService.

(** ** services/eligibilityService.js *)

Module EligibilityService.

(** [items.map(item => item.category.toLowerCase())] *)
Definition cartCategories (items : list Item) : list string :=
  List.map (fun item => Js.toLowerCase (category item)) items.

(** [EligibilityService.checkUserEligibility]: each test returns [false]
    as soon as it fires. *)
Definition checkUserEligibility
    (eligibility : Eligibility) (userContext : UserContext) : bool :=
  if match allowedUserTiers eligibility with
     | Some tiers => negb (Js.includes tiers (userTier userContext))
     | None => false
     end
  then false
  else if match minLifetimeSpend eligibility with
          | Some m => Js.lt_undef (lifetimeSpend userContext) m
          | None => false
          end
  then false
  else if match minOrdersPlaced eligibility with
          | Some m => Js.lt_undef (ordersPlaced userContext) m
          | None => false
          end
  then false
  else if match firstOrderOnly eligibility with
          | Some true => Js.gt_undef (ordersPlaced userContext) 0
          | _ => false
          end
  then false
  else if match allowedCountries eligibility with
          | Some countries => negb (Js.includes countries (country userContext))
          | None => false
          end
  then false
  else true.

(** The local [hasApplicableCategory] / [hasExcludedCategory] of
    [checkCartEligibility]. *)
Definition hasCategory (categories : list string) (items : list Item) : bool :=
  Js.some (fun category => Js.includes categories category)
    (cartCategories items).

(** [EligibilityService.checkCartEligibility] *)
Definition checkCartEligibility (eligibility : Eligibility) (cart : Cart) : bool :=
  let items := itemsOf cart in
  let cartValue :=
    Js.reduce (fun sum item => sum + unitPrice item * quantity item)%Q 0%Q
      items in
  if match minCartValue eligibility with
     | Some m => Js.lt cartValue m
     | None => false
     end
  then false
  else if match applicableCategories eligibility with
          | Some categories => negb (hasCategory categories items)
          | None => false
          end
  then false
  else if match excludedCategories eligibility with
          | Some categories => hasCategory categories items
          | None => false
          end
  then false
  else if match minItemsCount eligibility with
          | Some m =>
              let totalItems :=
                Js.reduce (fun sum item => sum + quantity item)%Q 0%Q items in
              Js.lt totalItems m
          | None => false
          end
  then false
  else true.

(** [EligibilityService.checkEligibility] *)
Definition checkEligibility
    (coupon : Coupon) (userContext : UserContext) (cart : Cart) : bool :=
  let eligibility := eligibility coupon in
  if negb (checkUserEligibility eligibility userContext) then false
  else if negb (checkCartEligibility eligibility cart) then false
  else true.

End EligibilityService.

(** ** The ranking shared by services/couponService.js and routes/coupons.js *)

(** An element [{ coupon, discount }] of [couponsWithDiscounts]. *)
Record Ranked := { coupon : Coupon; discount : Q }.

(** A JavaScript [Map] keyed by strings: the entries in insertion order. *)
Definition JsMap (V : Type) : Type := list (string * V).

Module JsMap.

Definition values {V} (m : JsMap V) : list V := List.map snd m.

Fixpoint get {V} (k : string) (m : JsMap V) : option V :=
  match m with
  | [] => None
  | (k', v) :: m' => if String.eqb k' k then Some v else get k m'
  end.

(** [m.set(k, v)]: an existing key keeps its position. *)
Fixpoint set {V} (k : string) (v : V) (m : JsMap V) : JsMap V :=
  match m with
  | [] => [(k, v)]
  | (k', v') :: m' =>
      if String.eqb k' k then (k, v) :: m' else (k', v') :: set k v m'
  end.

End JsMap.

Section Host.

(** The host's [String.prototype.localeCompare]: negative, zero or
    positive. *)
Variable localeCompare : string -> string -> Z.

(** The comparator passed to [couponsWithDiscounts.sort]. *)
Definition compareRanked (a b : Ranked) : Q :=
  if negb (Qeq_bool (discount b) (discount a)) then
    (discount b - discount a)%Q
  else if negb (Z.eqb (endDate (coupon a)) (endDate (coupon b))) then
    inject_Z (endDate (coupon a) - endDate (coupon b))
  else inject_Z (localeCompare (code (coupon a)) (code (coupon b))).

(** [eligibleCoupons.map(coupon => ({ coupon, discount }))] *)
Definition withDiscounts (cart : Cart) (eligibleCoupons : list Coupon) : list Ranked :=
  List.map
    (fun c => {| coupon := c;
                 discount := DiscountService.calculateDiscount c cart |})
    eligibleCoupons.

(** [couponsWithDiscounts.sort(...)], then [couponsWithDiscounts[0]]. *)
Definition rank (couponsWithDiscounts : list Ranked) : list Ranked :=
  Js.sort compareRanked couponsWithDiscounts.

Definition best (couponsWithDiscounts : list Ranked) : option Ranked :=
  List.head (rank couponsWithDiscounts).

End Host.

(** ** services/couponService.js *)

Module CouponService.

Definition inWindow (now : Z) (c : Coupon) : bool :=
  Z.geb now (startDate c) && Z.leb now (endDate c).

(** [CouponService.filterActiveCoupons]: the test on
    [usageLimitPerUser] guards an empty block. *)
Definition filterActiveCoupons
    (now : Z) (coupons : JsMap Coupon) (userContext : UserContext)
    : list Coupon :=
  List.filter
    (fun c =>
       if inWindow now c then
         match usageLimitPerUser c with
         | Some _ => true
         | None => true
         end
       else false)
    (JsMap.values coupons).

(** [CouponService.findBestCoupon]; [None] is the returned [null]. *)
Definition findBestCoupon
    (localeCompare : string -> string -> Z) (now : Z)
    (coupons : JsMap Coupon) (userContext : UserContext) (cart : Cart)
    : option Ranked :=
  let activeCoupons := filterActiveCoupons now coupons userContext in
  let eligibleCoupons :=
    List.filter
      (fun c => EligibilityService.checkEligibility c userContext cart)
      activeCoupons in
  match eligibleCoupons with
  | [] => None
  | _ => best localeCompare (withDiscounts cart eligibleCoupons)
  end.

End CouponService.

(** ** routes/coupons.js *)

(** The two module-level maps [coupons] and [userUsage]. *)
Record Store := {
  coupons : JsMap Coupon;
  userUsage : gmap string (gmap string nat)
}.

Record BestBody := {
  b_userContext : option UserContext;
  b_cart : option Cart
}.

Inductive Request :=
| GetCoupons
| PostCoupon (couponData : CouponData)
| PostBest (body : BestBody)
| GetHealth.

Inductive Response :=
| CouponList (count : nat) (couponList : list Coupon)
| ValidationFailed (details : list string)
| Created (c : Coupon)
| BadRequest (error : string)
| BestCoupon (c : option Coupon) (d : Q)
| Health.

Module Routes.

(** [userUsage.get(userId)?.get(couponCode) || 0] *)
Definition usageCount
    (userUsage : gmap string (gmap string nat)) (userId couponCode : string)
    : nat :=
  let userCouponUsage := default ∅ (userUsage !! userId) in
  default 0%nat (userCouponUsage !! couponCode).

(** [incrementUsage(userId, couponCode)] *)
Definition incrementUsage
    (userId couponCode : string) (userUsage : gmap string (gmap string nat))
    : gmap string (gmap string nat) :=
  let userUsage :=
    match userUsage !! userId with
    | Some _ => userUsage
    | None => <[userId := ∅]> userUsage
    end in
  let userCouponUsage := default ∅ (userUsage !! userId) in
  let currentCount := default 0%nat (userCouponUsage !! couponCode) in
  <[userId := <[couponCode := (currentCount + 1)%nat]> userCouponUsage]>
    userUsage.

(** The loop of [POST /coupons/best] over [coupons.values()]: date
    range, then the per-user usage limit. *)
Definition keepActive
    (now : Z) (userUsage : gmap string (gmap string nat))
    (userContext : UserContext) (c : Coupon) : bool :=
  if CouponService.inWindow now c then
    match usageLimitPerUser c with
    | Some limit =>
        if Js.ge (inject_Z (Z.of_nat (usageCount userUsage (userId userContext) (code c))))
             limit
        then false
        else true
    | None => true
    end
  else false.

Definition activeCoupons
    (now : Z) (st : Store) (userContext : UserContext) : list Coupon :=
  List.filter (keepActive now (userUsage st) userContext)
    (JsMap.values (coupons st)).

Definition eligibleCoupons
    (now : Z) (st : Store) (userContext : UserContext) (cart : Cart)
    : list Coupon :=
  List.filter
    (fun c => EligibilityService.checkEligibility c userContext cart)
    (activeCoupons now st userContext).

(** The selection of [POST /coupons/best] once the body is accepted. *)
Definition selectBest
    (localeCompare : string -> string -> Z) (now : Z) (st : Store)
    (userContext : UserContext) (cart : Cart) : Store * Response :=
  let eligible := eligibleCoupons now st userContext cart in
  match eligible with
  | [] => (st, BestCoupon None 0)
  | _ =>
      match best localeCompare (withDiscounts cart eligible) with
      | Some b =>
          ({| coupons := coupons st;
              userUsage :=
                incrementUsage (userId userContext) (code (coupon b))
                  (userUsage st) |},
           BestCoupon (Some (coupon b)) (discount b))
      | None => (st, BestCoupon None 0)
      end
  end.

Definition badItem (item : Item) : bool :=
  String.eqb (productId item) "" || String.eqb (category item) "".

(** [router.post('/best', ...)] *)
Definition postBest
    (localeCompare : string -> string -> Z) (now : Z) (st : Store)
    (body : BestBody) : Store * Response :=
  match b_userContext body with
  | None => (st, BadRequest "userContext is required")
  | Some userContext =>
      match b_cart body with
      | Some {| items := Some cartItems |} =>
          if String.eqb (userId userContext) ""
             || String.eqb (userTier userContext) ""
             || String.eqb (country userContext) ""
          then (st, BadRequest "userContext must include userId, userTier, and country")
          else if existsb badItem cartItems
          then (st, BadRequest "Each cart item must have productId, category, unitPrice (number), and quantity (number)")
          else selectBest localeCompare now st userContext
                 {| items := Some cartItems |}
      | _ => (st, BadRequest "cart with items array is required")
      end
  end.

(** [router.post('/', ...)] *)
Definition postCoupon (st : Store) (couponData : CouponData) : Store * Response :=
  let validationErrors := CouponModel.validate couponData in
  if (0 <? length validationErrors)%nat then
    (st, ValidationFailed validationErrors)
  else
    let c := CouponModel.new couponData in
    ({| coupons := JsMap.set (code c) c (coupons st);
        userUsage := userUsage st |},
     Created c).

(** [router.get('/', ...)] *)
Definition getCoupons (st : Store) : Store * Response :=
  let couponList := JsMap.values (coupons st) in
  (st, CouponList (length couponList) couponList).

(** One request served by the application. *)
Definition handle
    (localeCompare : string -> string -> Z) (now : Z) (st : Store)
    (req : Request) : Store * Response :=
  match req with
  | GetCoupons => getCoupons st
  | PostCoupon couponData => postCoupon st couponData
  | PostBest body => postBest localeCompare now st body
  | GetHealth => (st, Health)
  end.

(** A run of the server: requests served one after the other, each at
    its own instant. *)
Fixpoint serve
    (localeCompare : string -> string -> Z) (st : Store)
    (reqs : list (Z * Request)) : Store :=
  match reqs with
  | [] => st
  | (now, req) :: reqs' =>
      serve localeCompare (fst (handle localeCompare now st req)) reqs'
  end.

End Routes.

(** ** A host collation

    Node evaluates [localeCompare] with ICU.  [IcuRoot.localeCompare]
    follows the root collation on strings of ASCII letters and digits:
    the strings are compared first by primary weights (digits before
    letters, letters without regard to case), and only when those agree by
    case, lower case first.  So ["a" < "B"] and ["a" < "A" < "b"].  Other
    bytes are given the primary weight of their code, below the digits. *)

Module IcuRoot.

Definition isUpper (n : nat) : bool := (65 <=? n)%nat && (n <=? 90)%nat.
Definition isLower (n : nat) : bool := (97 <=? n)%nat && (n <=? 122)%nat.
Definition isDigit (n : nat) : bool := (48 <=? n)%nat && (n <=? 57)%nat.

Definition primary (c : ascii) : Z :=
  let n := nat_of_ascii c in
  if isUpper n then 1000 + Z.of_nat (n - 65)
  else if isLower n then 1000 + Z.of_nat (n - 97)
  else if isDigit n then 500 + Z.of_nat (n - 48)
  else Z.of_nat n.

Definition tertiary (c : ascii) : Z :=
  if isUpper (nat_of_ascii c) then 1 else 0.

Fixpoint weights (w : ascii -> Z) (s : string) : list Z :=
  match s with
  | EmptyString => []
  | String c s' => w c :: weights w s'
  end.

(** Lexicographic comparison of two sequences of weights. *)
Fixpoint lex (a b : list Z) : comparison :=
  match a, b with
  | [], [] => Eq
  | [], _ :: _ => Lt
  | _ :: _, [] => Gt
  | x :: a', y :: b' =>
      match Z.compare x y with
      | Eq => lex a' b'
      | o => o
      end
  end.

Definition collate (a b : string) : comparison :=
  match lex (weights primary a) (weights primary b) with
  | Eq => lex (weights tertiary a) (weights tertiary b)
  | o => o
  end.

Definition localeCompare (a b : string) : Z :=
  match collate a b with
  | Lt => (-1)%Z
  | Eq => 0%Z
  | Gt => 1%Z
  end.

End IcuRoot.

(** ** Consistent comparators

    [Array.prototype.sort] promises a sorted result only for a comparator
    that orders its arguments consistently; for the ranking this is a
    requirement on the host's [localeCompare]. *)

Class Collation (localeCompare : string -> string -> Z) : Prop := {
  collation_antisym : forall a b,
    (localeCompare a b < 0)%Z <-> (0 < localeCompare b a)%Z;
  collation_trans : forall a b c,
    (localeCompare a b <= 0)%Z -> (localeCompare b c <= 0)%Z ->
    (localeCompare a c <= 0)%Z
}.

(** [compareFn] keeps [x] before [y]. *)
Definition keepsFirst {A} (compareFn : A -> A -> Q) (x y : A) : Prop :=
  Qle_bool (compareFn x y) 0 = true.

(** ** The ranking in the words of the specification *)

(** [precedes lc a b]: [a] is not ranked after [b] - a larger discount,
    or the same discount and an earlier end, or the same discount and end
    and a code that the host does not collate after the other. *)
Definition precedes (localeCompare : string -> string -> Z) (a b : Ranked) : Prop :=
  (discount b < discount a)%Q
  \/ (discount a == discount b)%Q
     /\ ((endDate (coupon a) < endDate (coupon b))%Z
         \/ endDate (coupon a) = endDate (coupon b)
            /\ (localeCompare (code (coupon a)) (code (coupon b)) <= 0)%Z).

(** A coupon survives the three filters of the selection. *)
Definition survives
    (now : Z) (st : Store) (userContext : UserContext) (cart : Cart)
    (c : Coupon) : Prop :=
  (startDate c <= now <= endDate c)%Z
  /\ (forall limit, usageLimitPerUser c = Some limit ->
        (inject_Z (Z.of_nat (Routes.usageCount (userUsage st) (userId userContext) (code c)))
         < limit)%Q)
  /\ EligibilityService.checkEligibility c userContext cart = true.

(** The least of [x] and the numbers of [l]. *)
Definition minOf (x : Q) (l : list Q) : Q := fold_left Qmin l x.

(** A rule field is widened: an allow-set by a superset, a minimum by a
    lower one; an unchanged field counts as widened. *)
Definition widerSet (old new : option (list string)) : Prop :=
  new = old
  \/ exists A B, old = Some A /\ new = Some B /\ (forall x, In x A -> In x B).

Definition lowerMin (old new : option Q) : Prop :=
  new = old \/ exists m m', old = Some m /\ new = Some m' /\ (m' <= m)%Q.

Record widens (old new : Eligibility) : Prop := {
  widens_tiers : widerSet (allowedUserTiers old) (allowedUserTiers new);
  widens_countries : widerSet (allowedCountries old) (allowedCountries new);
  widens_applicable :
    widerSet (applicableCategories old) (applicableCategories new);
  widens_spend : lowerMin (minLifetimeSpend old) (minLifetimeSpend new);
  widens_orders : lowerMin (minOrdersPlaced old) (minOrdersPlaced new);
  widens_cartValue : lowerMin (minCartValue old) (minCartValue new);
  widens_itemsCount : lowerMin (minItemsCount old) (minItemsCount new);
  widens_firstOrder : firstOrderOnly new = firstOrderOnly old;
  widens_excluded : excludedCategories new = excludedCategories old
}.

(** [c] with its eligibility rules replaced. *)
Definition withEligibility (c : Coupon) (e : Eligibility) : Coupon :=
  {| code := code c; description := description c;
     discountType := discountType c; discountValue := discountValue c;
     maxDiscountAmount := maxDiscountAmount c;
     startDate := startDate c; endDate := endDate c;
     usageLimitPerUser := usageLimitPerUser c;
     eligibility := e |}.

(** [c] with its per-user limit replaced. *)
Definition withUsageLimit (c : Coupon) (limit : option Q) : Coupon :=
  {| code := code c; description := description c;
     discountType := discountType c; discountValue := discountValue c;
     maxDiscountAmount := maxDiscountAmount c;
     startDate := startDate c; endDate := endDate c;
     usageLimitPerUser := limit;
     eligibility := eligibility c |}.

(** A cart line matches a list of categories when its category and one
    of the list are equal after lowercasing both. *)
Definition matchesCategory (cats : list string) (item : Item) : Prop :=
  exists cat, In cat cats /\ Js.toLowerCase cat = Js.toLowerCase (category item).

(** The user-side rules, one clause per field. *)
Definition userRules (e : Eligibility) (u : UserContext) : Prop :=
  (forall tiers, allowedUserTiers e = Some tiers -> In (userTier u) tiers)
  /\ (forall m, minLifetimeSpend e = Some m ->
        Js.lt_undef (lifetimeSpend u) m = false)
  /\ (forall m, minOrdersPlaced e = Some m ->
        Js.lt_undef (ordersPlaced u) m = false)
  /\ (firstOrderOnly e = Some true -> Js.gt_undef (ordersPlaced u) 0 = false)
  /\ (forall countries, allowedCountries e = Some countries ->
        In (country u) countries).

(** The cart-side rules, one clause per field. *)
Definition cartRules (e : Eligibility) (cart : Cart) : Prop :=
  (forall m, minCartValue e = Some m ->
     (m <= DiscountService.getCartValue cart)%Q)
  /\ (forall categories, applicableCategories e = Some categories ->
        EligibilityService.hasCategory categories (itemsOf cart) = true)
  /\ (forall categories, excludedCategories e = Some categories ->
        EligibilityService.hasCategory categories (itemsOf cart) = false)
  /\ (forall m, minItemsCount e = Some m ->
        (m <= Js.reduce (fun sum item => sum + quantity item) 0 (itemsOf cart))%Q).

(** ** Further predicates used in the properties *)

(** An optional minimum is absent or not negative. *)
Definition nonNegative (x : option Q) : Prop :=
  forall q, x = Some q -> (0 <= q)%Q.

(** The request bodies of [POST /coupons] that raise no validation
    message, field by field. *)
Definition acceptable (data : CouponData) : Prop :=
  Js.isBlank (d_code data) = false
  /\ d_description data <> ""
  /\ (d_discountType data = "FLAT" \/ d_discountType data = "PERCENT")
  /\ (0 < d_discountValue data)%Q
  /\ (forall m, d_maxDiscountAmount data = Some m -> (0 < m)%Q)
  /\ (d_startDate data <= d_endDate data)%Z
  /\ nonNegative (d_usageLimitPerUser data)
  /\ (forall e, d_eligibility data = Some e ->
        nonNegative (minLifetimeSpend e)
        /\ nonNegative (minOrdersPlaced e)
        /\ nonNegative (minCartValue e)
        /\ nonNegative (minItemsCount e)).

(** Every entry of the catalog sits under its coupon's code, and no code
    occurs twice. *)
Definition keyedByCode (m : JsMap Coupon) : Prop :=
  List.NoDup (List.map fst m) /\ forall k c, In (k, c) m -> code c = k.

(** What holds of a coupon record once it went through [Coupon.validate]
    and the constructor. *)
Definition storedWell (c : Coupon) : Prop :=
  Js.isBlank (code c) = false
  /\ (discountType c = "FLAT" \/ discountType c = "PERCENT")
  /\ (0 < discountValue c)%Q
  /\ (forall cap, maxDiscountAmount c = Some cap -> (0 < cap)%Q)
  /\ (startDate c <= endDate c)%Z
  /\ (forall limit, usageLimitPerUser c = Some limit -> (0 < limit)%Q).

(** The bodies of [POST /coupons/best] that pass the four input checks,
    with the user context and the cart lines they carry. *)
Definition wellFormed
    (body : BestBody) (u : UserContext) (cartItems : list Item) : Prop :=
  b_userContext body = Some u
  /\ b_cart body = Some {| items := Some cartItems |}
  /\ userId u <> "" /\ userTier u <> "" /\ country u <> ""
  /\ forall item, In item cartItems ->
       productId item <> "" /\ category item <> "".

(** [c] with its cap replaced. *)
Definition withMaxDiscountAmount (c : Coupon) (cap : option Q) : Coupon :=
  {| code := code c; description := description c;
     discountType := discountType c; discountValue := discountValue c;
     maxDiscountAmount := cap;
     startDate := startDate c; endDate := endDate c;
     usageLimitPerUser := usageLimitPerUser c;
     eligibility := eligibility c |}.


(** The JSON answer of [POST /coupons/best] for a result of
    [CouponService.findBestCoupon]. *)
Definition answerOf (r : option Ranked) : Response :=
  match r with
  | Some b => BestCoupon (Some (coupon b)) (discount b)
  | None => BestCoupon None 0
  end.

(** ** Sample data *)

Module Sample.

Definition flat (c : string) (value : Q) (limit : option Q) (e : option Eligibility)
    : CouponData :=
  {| d_code := c; d_description := "sample"; d_discountType := "FLAT";
     d_discountValue := value; d_maxDiscountAmount := None;
     d_startDate := 0; d_endDate := 1000;
     d_usageLimitPerUser := limit; d_eligibility := e |}.

Definition percent (c : string) (value : Q) (cap : option Q) : CouponData :=
  {| d_code := c; d_description := "sample"; d_discountType := "PERCENT";
     d_discountValue := value; d_maxDiscountAmount := cap;
     d_startDate := 0; d_endDate := 1000;
     d_usageLimitPerUser := None; d_eligibility := None |}.

Definition user : UserContext :=
  {| userId := "u123"; userTier := "NEW"; country := "IN";
     lifetimeSpend := Some 1000%Q; ordersPlaced := Some 1%Q |}.

Definition cart : Cart :=
  {| items := Some [ {| productId := "p1"; category := "electronics";
                        unitPrice := 1000; quantity := 1 |} ] |}.

Definition body : BestBody :=
  {| b_userContext := Some user; b_cart := Some cart |}.

Definition empty : Store := {| coupons := []; userUsage := ∅ |}.

Definition electronicsRules : Eligibility :=
  {| allowedUserTiers := None; minLifetimeSpend := None;
     minOrdersPlaced := None; firstOrderOnly := None;
     allowedCountries := None; minCartValue := None;
     applicableCategories := Some ["ELECTRONICS"];
     excludedCategories := None; minItemsCount := None |}.

Definition tierRules (tiers : list string) (minCart : Q) : Eligibility :=
  {| allowedUserTiers := Some tiers; minLifetimeSpend := None;
     minOrdersPlaced := None; firstOrderOnly := None;
     allowedCountries := None; minCartValue := Some minCart;
     applicableCategories := None;
     excludedCategories := None; minItemsCount := None |}.

(** Two coupons with the same discount and the same end instant. *)
Definition ranked (c : string) : Ranked :=
  {| coupon := CouponModel.new (flat c 100 None None); discount := 100 |}.

Definition tieStore : Store :=
  {| coupons := [("B", CouponModel.new (flat "B" 100 None None));
                 ("a", CouponModel.new (flat "a" 100 None None))];
     userUsage := ∅ |}.

(** A catalog whose only coupon ended before the instant 5000. *)
Definition expiredStore : Store :=
  {| coupons := [("OLD", CouponModel.new (flat "OLD" 100 None None))];
     userUsage := ∅ |}.


Definition limitedStore : Store :=
  {| coupons := [("LIMITED", CouponModel.new (flat "LIMITED" 100 (Some 1%Q) None))];
     userUsage := ∅ |}.

(** The catalog of the repository's tie-break test. *)
Definition tieBreakStore : Store :=
  {| coupons := [("Z_COUPON", CouponModel.new (flat "Z_COUPON" 100 None None));
                 ("A_COUPON", CouponModel.new (flat "A_COUPON" 100 None None))];
     userUsage := ∅ |}.

(** FLAT 50 and FLAT 100, both eligible. *)
Definition flatStore : Store :=
  {| coupons := [("FLAT50", CouponModel.new (flat "FLAT50" 50 None None));
                 ("FLAT100", CouponModel.new (flat "FLAT100" 100 None None))];
     userUsage := ∅ |}.

(** A user context sent without [lifetimeSpend] and [ordersPlaced]. *)
Definition newcomer : UserContext :=
  {| userId := "u999"; userTier := "NEW"; country := "IN";
     lifetimeSpend := None; ordersPlaced := None |}.

(** Rules on the purchase history only. *)
Definition loyalRules : Eligibility :=
  {| allowedUserTiers := None; minLifetimeSpend := Some 100000%Q;
     minOrdersPlaced := Some 10%Q; firstOrderOnly := Some true;
     allowedCountries := None; minCartValue := None;
     applicableCategories := None;
     excludedCategories := None; minItemsCount := None |}.

(** An allow-set with no member. *)
Definition nobodyRules : Eligibility :=
  {| allowedUserTiers := Some []; minLifetimeSpend := None;
     minOrdersPlaced := None; firstOrderOnly := None;
     allowedCountries := None; minCartValue := None;
     applicableCategories := None;
     excludedCategories := None; minItemsCount := None |}.

Definition extraLine : Item :=
  {| productId := "p2"; category := "fashion"; unitPrice := 500; quantity := 2 |}.

End Sample.

(** * Properties *)

(** ** Numbers *)

Lemma js_lt_true (a b : Q) : Js.lt a b = true <-> (a < b)%Q.
Proof.
  unfold Js.lt. rewrite negb_true_iff. split.
  - intros H. apply Qnot_le_lt. intros Hle.
    apply Qle_bool_iff in Hle. congruence.
  - intros H. destruct (Qle_bool b a) eqn:E; [|reflexivity].
    apply Qle_bool_iff in E. exfalso. exact (Qlt_not_le _ _ H E).
Qed.

Lemma js_lt_false (a b : Q) : Js.lt a b = false <-> (b <= a)%Q.
Proof.
  unfold Js.lt. rewrite negb_false_iff. apply Qle_bool_iff.
Qed.

Lemma js_ge_true (a b : Q) : Js.ge a b = true <-> (b <= a)%Q.
Proof. apply Qle_bool_iff. Qed.

Lemma js_ge_false (a b : Q) : Js.ge a b = false <-> (a < b)%Q.
Proof.
  unfold Js.ge. split.
  - intros H. apply Qnot_le_lt. intros Hle.
    apply Qle_bool_iff in Hle. congruence.
  - intros H. destruct (Qle_bool b a) eqn:E; [|reflexivity].
    apply Qle_bool_iff in E. exfalso. exact (Qlt_not_le _ _ H E).
Qed.

(** ** The discount calculator *)

Section Discount.

Lemma cartValue_from (l : list Item) (acc : Q) :
  (forall item, In item l -> (0 <= unitPrice item * quantity item)%Q) ->
  (acc <= fold_left (fun sum item => sum + unitPrice item * quantity item) l acc)%Q.
Proof.
  revert acc. induction l as [|item l IH]; intros acc Hl; simpl.
  - apply Qle_refl.
  - eapply Qle_trans; [|apply IH; intros i Hi; apply Hl; now right].
    rewrite <- (Qplus_0_r acc) at 1.
    apply Qplus_le_r. apply Hl. now left.
Qed.


(** [calculateDiscount] folds the cart exactly as [getCartValue]. *)
Lemma calculateDiscount_unfold (c : Coupon) (cart : Cart) :
  DiscountService.calculateDiscount c cart =
  Qmin
    (if String.eqb (discountType c) "FLAT" then discountValue c
     else if String.eqb (discountType c) "PERCENT" then
       match maxDiscountAmount c with
       | Some cap =>
           Qmin (DiscountService.getCartValue cart * discountValue c / 100) cap
       | None => (DiscountService.getCartValue cart * discountValue c / 100)%Q
       end
     else 0%Q)
    (DiscountService.getCartValue cart).
Proof. reflexivity. Qed.


End Discount.

(** What [Coupon.validate] accepts has a positive discount value and,
    once built, a positive cap or none. *)
Lemma validate_positive (data : CouponData) :
  CouponModel.validate data = [] ->
  (0 < discountValue (CouponModel.new data))%Q
  /\ (forall cap, maxDiscountAmount (CouponModel.new data) = Some cap ->
        (0 < cap)%Q)
  /\ (discountType (CouponModel.new data) = "FLAT"
      \/ discountType (CouponModel.new data) = "PERCENT").
Proof.
  unfold CouponModel.validate. intros H.
  repeat (apply app_eq_nil in H; destruct H as [? H]).
  unfold CouponModel.check in *. simpl.
  repeat split.
  - destruct (Qle_bool (d_discountValue data) 0) eqn:E; [discriminate|].
    apply Qnot_le_lt. intros Hle. apply Qle_bool_iff in Hle. congruence.
  - intros cap. destruct (d_maxDiscountAmount data) as [m|]; simpl; [|discriminate].
    destruct (Qeq_bool m 0); [discriminate|]. intros [= <-].
    destruct (Qle_bool m 0) eqn:E; [discriminate|].
    apply Qnot_le_lt. intros Hle. apply Qle_bool_iff in Hle. congruence.
  - unfold Js.includes in *. simpl in *.
    destruct (String.eqb_spec (d_discountType data) "FLAT"); [now left|].
    destruct (String.eqb_spec (d_discountType data) "PERCENT"); [now right|].
    simpl in *. discriminate.
Qed.



(** C4. A PERCENT coupon discounts the least of [cartValue * pct / 100],
    the cap when there is one, and the cart value. *)
Theorem calculateDiscount_percent (c : Coupon) (cart : Cart) :
  discountType c = "PERCENT" ->
  DiscountService.calculateDiscount c cart =
  match maxDiscountAmount c with
  | Some cap =>
      minOf (DiscountService.getCartValue cart * discountValue c / 100)
        [cap; DiscountService.getCartValue cart]
  | None =>
      minOf (DiscountService.getCartValue cart * discountValue c / 100)
        [DiscountService.getCartValue cart]
  end.
Proof.
  intros Hp. rewrite calculateDiscount_unfold, Hp. simpl.
  destruct (maxDiscountAmount c); reflexivity.
Qed.

Lemma calculateDiscount_percent_witness :
  DiscountService.calculateDiscount
    (CouponModel.new (Sample.percent "CAPPED" 20 (Some 150%Q))) Sample.cart
  = minOf (DiscountService.getCartValue Sample.cart * 20 / 100)
      [150%Q; DiscountService.getCartValue Sample.cart].
Proof.
  exact (calculateDiscount_percent
           (CouponModel.new (Sample.percent "CAPPED" 20 (Some 150%Q)))
           Sample.cart eq_refl).
Defined.

Lemma minOf_least (x : Q) (l : list Q) :
  (minOf x l <= x)%Q
  /\ (forall y, In y l -> (minOf x l <= y)%Q)
  /\ In (minOf x l) (x :: l).
Proof.
  unfold minOf. revert x. induction l as [|y l IH]; intros x; simpl.
  - repeat split; [apply Qle_refl | tauto | now left].
  - destruct (IH (Qmin x y)) as (H1 & H2 & H3). repeat split.
    + eapply Qle_trans; [exact H1 | apply Q.le_min_l].
    + intros z [<- | Hz]; [|now apply H2].
      eapply Qle_trans; [exact H1 | apply Q.le_min_r].
    + destruct H3 as [H3 | H3]; [|now right; right].
      rewrite <- H3. unfold Qmin, GenericMinMax.gmin.
      destruct (x ?= y)%Q; [now left | now left | right; now left].
Qed.

(** ** The eligibility evaluator *)

Lemma includes_In (l : list string) (s : string) :
  Js.includes l s = true <-> In s l.
Proof.
  unfold Js.includes. rewrite existsb_exists. split.
  - intros (x & Hx & E). apply String.eqb_eq in E. now subst.
  - intros H. exists s. split; [exact H | apply String.eqb_refl].
Qed.

Lemma hasCategory_true (categories : list string) (l : list Item) :
  EligibilityService.hasCategory categories l = true <->
  exists item, In item l /\ In (Js.toLowerCase (category item)) categories.
Proof.
  unfold EligibilityService.hasCategory, Js.some,
    EligibilityService.cartCategories.
  rewrite existsb_exists. split.
  - intros (s & Hs & Hin). apply in_map_iff in Hs as (item & <- & Hitem).
    exists item. split; [exact Hitem | now apply includes_In].
  - intros (item & Hitem & Hin). exists (Js.toLowerCase (category item)).
    split; [|now apply includes_In].
    apply in_map_iff. now exists item.
Qed.

Lemma hasCategory_normalized (cats : list string) (l : list Item) :
  EligibilityService.hasCategory (List.map Js.toLowerCase cats) l = true <->
  exists item, In item l /\ matchesCategory cats item.
Proof.
  rewrite hasCategory_true. unfold matchesCategory. split.
  - intros (item & Hitem & Hin). apply in_map_iff in Hin as (cat & E & Hcat).
    exists item. split; [exact Hitem | now exists cat].
  - intros (item & Hitem & cat & Hcat & E). exists item.
    split; [exact Hitem|]. rewrite <- E. now apply in_map.
Qed.

Lemma guard_true (b rest : bool) :
  (if b then false else rest) = true <-> b = false /\ rest = true.
Proof. destruct b; intuition congruence. Qed.

Lemma set_guard (o : option (list string)) (s : string) :
  match o with Some l => negb (Js.includes l s) | None => false end = false
  <-> forall l, o = Some l -> In s l.
Proof.
  destruct o as [l|]; [|intuition congruence].
  rewrite negb_false_iff, includes_In. split.
  - now intros H l' [= <-].
  - intros H. now apply H.
Qed.

Lemma min_guard (o : option Q) (f : Q -> bool) :
  match o with Some m => f m | None => false end = false
  <-> forall m, o = Some m -> f m = false.
Proof.
  destruct o as [m|]; [|intuition congruence]. split.
  - now intros H m' [= <-].
  - intros H. now apply H.
Qed.

Lemma flag_guard (o : option bool) (g : bool) :
  match o with Some true => g | _ => false end = false
  <-> (o = Some true -> g = false).
Proof. destruct o as [[|]|]; intuition congruence. Qed.

Lemma checkUserEligibility_true (e : Eligibility) (u : UserContext) :
  EligibilityService.checkUserEligibility e u = true <-> userRules e u.
Proof.
  unfold EligibilityService.checkUserEligibility, userRules.
  rewrite !guard_true.
  pose proof (set_guard (allowedUserTiers e) (userTier u)) as E1.
  pose proof (min_guard (minLifetimeSpend e)
                (Js.lt_undef (lifetimeSpend u))) as E2.
  pose proof (min_guard (minOrdersPlaced e)
                (Js.lt_undef (ordersPlaced u))) as E3.
  pose proof (flag_guard (firstOrderOnly e)
                (Js.gt_undef (ordersPlaced u) 0)) as E4.
  pose proof (set_guard (allowedCountries e) (country u)) as E5.
  simpl in *. intuition auto.
Qed.

Lemma checkCartEligibility_true (e : Eligibility) (cart : Cart) :
  EligibilityService.checkCartEligibility e cart = true <-> cartRules e cart.
Proof.
  unfold EligibilityService.checkCartEligibility, cartRules.
  rewrite !guard_true.
  pose proof (min_guard (minCartValue e)
                (Js.lt (DiscountService.getCartValue cart))) as E1.
  assert (E2 :
    match applicableCategories e with
    | Some categories =>
        negb (EligibilityService.hasCategory categories (itemsOf cart))
    | None => false
    end = false
    <-> forall categories, applicableCategories e = Some categories ->
          EligibilityService.hasCategory categories (itemsOf cart) = true).
  { clear. destruct (applicableCategories e) as [l|]; [|intuition congruence].
    rewrite negb_false_iff. split.
    - now intros H l' [= <-].
    - intros H. now apply H. }
  assert (E3 :
    match excludedCategories e with
    | Some categories =>
        EligibilityService.hasCategory categories (itemsOf cart)
    | None => false
    end = false
    <-> forall categories, excludedCategories e = Some categories ->
          EligibilityService.hasCategory categories (itemsOf cart) = false).
  { clear. destruct (excludedCategories e) as [l|]; [|intuition congruence].
    split.
    - now intros H l' [= <-].
    - intros H. now apply H. }
  pose proof (min_guard (minItemsCount e)
                (Js.lt (Js.reduce (fun sum item => sum + quantity item)%Q 0%Q
                          (itemsOf cart)))) as E4.
  assert (L : forall (o : option Q) (x : Q),
             (forall m, o = Some m -> Js.lt x m = false)
             <-> (forall m, o = Some m -> (m <= x)%Q)).
  { intros o x. split; intros H m Hm.
    - apply js_lt_false. now apply H.
    - apply js_lt_false. now apply H. }
  rewrite L in E1. rewrite L in E4.
  unfold DiscountService.getCartValue in *.
  simpl in *. intuition auto.
Qed.

Lemma checkEligibility_true (c : Coupon) (u : UserContext) (cart : Cart) :
  EligibilityService.checkEligibility c u cart = true <->
  userRules (eligibility c) u /\ cartRules (eligibility c) cart.
Proof.
  unfold EligibilityService.checkEligibility.
  rewrite <- checkUserEligibility_true, <- checkCartEligibility_true.
  destruct (EligibilityService.checkUserEligibility (eligibility c) u),
    (EligibilityService.checkCartEligibility (eligibility c) cart);
    simpl; intuition congruence.
Qed.

Lemma lt_undef_lower (a : option Q) (m m' : Q) :
  (m' <= m)%Q -> Js.lt_undef a m = false -> Js.lt_undef a m' = false.
Proof.
  destruct a as [x|]; simpl; [|reflexivity].
  rewrite !js_lt_false. intros H1 H2. now apply Qle_trans with m.
Qed.

Lemma hasCategory_superset (A B : list string) (l : list Item) :
  (forall x, In x A -> In x B) ->
  EligibilityService.hasCategory A l = true ->
  EligibilityService.hasCategory B l = true.
Proof.
  rewrite !hasCategory_true. intros Hsub (item & Hitem & Hin).
  exists item. split; [exact Hitem | now apply Hsub].
Qed.

Lemma userRules_widens (old new : Eligibility) (u : UserContext) :
  widens old new -> userRules old u -> userRules new u.
Proof.
  intros W (H1 & H2 & H3 & H4 & H5). repeat split.
  - intros tiers E.
    destruct (widens_tiers _ _ W) as [Eq | (A & B & EA & EB & Hsub)].
    + apply H1. congruence.
    + rewrite EB in E. injection E as <-. now apply Hsub, H1.
  - intros m E.
    destruct (widens_spend _ _ W) as [Eq | (m0 & m' & EA & EB & Hle)].
    + apply H2. congruence.
    + rewrite EB in E. injection E as <-.
      apply lt_undef_lower with m0; [exact Hle | now apply H2].
  - intros m E.
    destruct (widens_orders _ _ W) as [Eq | (m0 & m' & EA & EB & Hle)].
    + apply H3. congruence.
    + rewrite EB in E. injection E as <-.
      apply lt_undef_lower with m0; [exact Hle | now apply H3].
  - intros E. apply H4. rewrite <- (widens_firstOrder _ _ W). exact E.
  - intros countries E.
    destruct (widens_countries _ _ W) as [Eq | (A & B & EA & EB & Hsub)].
    + apply H5. congruence.
    + rewrite EB in E. injection E as <-. now apply Hsub, H5.
Qed.

Lemma cartRules_widens (old new : Eligibility) (cart : Cart) :
  widens old new -> cartRules old cart -> cartRules new cart.
Proof.
  intros W (H1 & H2 & H3 & H4). repeat split.
  - intros m E.
    destruct (widens_cartValue _ _ W) as [Eq | (m0 & m' & EA & EB & Hle)].
    + apply H1. congruence.
    + rewrite EB in E. injection E as <-.
      apply Qle_trans with m0; [exact Hle | now apply H1].
  - intros categories E.
    destruct (widens_applicable _ _ W) as [Eq | (A & B & EA & EB & Hsub)].
    + apply H2. congruence.
    + rewrite EB in E. injection E as <-.
      apply hasCategory_superset with A; [exact Hsub | now apply H2].
  - intros categories E. apply H3.
    rewrite <- (widens_excluded _ _ W). exact E.
  - intros m E.
    destruct (widens_itemsCount _ _ W) as [Eq | (m0 & m' & EA & EB & Hle)].
    + apply H4. congruence.
    + rewrite EB in E. injection E as <-.
      apply Qle_trans with m0; [exact Hle | now apply H4].
Qed.

(** C7. Eligibility is monotone per rule field: when a coupon is eligible
    for a user and a cart, the coupon with allow-sets replaced by
    supersets and minimum thresholds lowered is eligible as well. *)
Theorem checkEligibility_monotone
    (c : Coupon) (new : Eligibility) (u : UserContext) (cart : Cart) :
  EligibilityService.checkEligibility c u cart = true ->
  widens (eligibility c) new ->
  EligibilityService.checkEligibility (withEligibility c new) u cart = true.
Proof.
  rewrite !checkEligibility_true. simpl. intros [Hu Hc] W. split.
  - now apply userRules_widens with (eligibility c).
  - now apply cartRules_widens with (eligibility c).
Qed.

(** C8. For a coupon built by the constructor, the cart-side check passes
    exactly when the thresholds are met, some cart line matches an
    applicable category and no cart line matches an excluded category,
    where a line matches a category when the two strings are equal after
    lowercasing both. *)
Theorem category_matching_case_insensitive
    (data : CouponData) (rules : Eligibility) (cart : Cart) :
  d_eligibility data = Some rules ->
  EligibilityService.checkCartEligibility
    (eligibility (CouponModel.new data)) cart = true
  <->
  (forall m, minCartValue rules = Some m ->
     (m <= DiscountService.getCartValue cart)%Q)
  /\ (forall cats, applicableCategories rules = Some cats ->
        exists item, In item (itemsOf cart) /\ matchesCategory cats item)
  /\ (forall cats, excludedCategories rules = Some cats ->
        forall item, In item (itemsOf cart) -> ~ matchesCategory cats item)
  /\ (forall m, minItemsCount rules = Some m ->
        (m <= Js.reduce (fun sum item => sum + quantity item) 0
                (itemsOf cart))%Q).
Proof.
  intros Hd. rewrite checkCartEligibility_true.
  unfold cartRules, CouponModel.new. rewrite Hd. simpl.
  split; intros (H1 & H2 & H3 & H4); repeat split; auto.
  - intros cats E. apply hasCategory_normalized. apply H2.
    now rewrite E.
  - intros cats E item Hitem Hm.
    assert (Hex : EligibilityService.hasCategory
                    (List.map Js.toLowerCase cats) (itemsOf cart) = true).
    { apply hasCategory_normalized. now exists item. }
    rewrite (H3 (List.map Js.toLowerCase cats)) in Hex; [discriminate|].
    now rewrite E.
  - intros categories E.
    destruct (applicableCategories rules) as [cats|]; [|discriminate].
    injection E as <-. apply hasCategory_normalized. now apply H2.
  - intros categories E.
    destruct (excludedCategories rules) as [cats|]; [|discriminate].
    injection E as <-.
    destruct (EligibilityService.hasCategory
                (List.map Js.toLowerCase cats) (itemsOf cart)) eqn:Hex;
      [|reflexivity].
    apply hasCategory_normalized in Hex as (item & Hitem & Hm).
    exfalso. exact (H3 cats eq_refl item Hitem Hm).
Qed.

Lemma checkEligibility_monotone_witness :
  EligibilityService.checkEligibility
    (withEligibility
       (CouponModel.new
          (Sample.flat "TIER" 100 None (Some (Sample.tierRules ["NEW"] 500))))
       (Sample.tierRules ["NEW"; "GOLD"] 100))
    Sample.user Sample.cart = true.
Proof.
  apply checkEligibility_monotone.
  - reflexivity.
  - constructor; simpl;
      try reflexivity; try (left; reflexivity);
      right; do 2 eexists; (split; [reflexivity|]); (split; [reflexivity|]).
    + intros x [<- | []]. now left.
    + discriminate.
Defined.

Lemma category_matching_case_insensitive_witness :
  EligibilityService.checkCartEligibility
    (eligibility
       (CouponModel.new
          (Sample.flat "CATEGORY" 100 None (Some Sample.electronicsRules))))
    Sample.cart = true.
Proof.
  apply (proj2 (category_matching_case_insensitive
                  (Sample.flat "CATEGORY" 100 None (Some Sample.electronicsRules))
                  Sample.electronicsRules Sample.cart eq_refl)).
  repeat split; simpl; try discriminate.
  intros cats [= <-]. eexists. split; [left; reflexivity|].
  exists "ELECTRONICS". split; [now left | reflexivity].
Defined.

(** The coupon created with [applicableCategories: ["ELECTRONICS"]] is
    eligible for the cart whose only line is in category "electronics". *)
Example electronics_matches :
  EligibilityService.checkEligibility
    (CouponModel.new
       (Sample.flat "CATEGORY" 100 None (Some Sample.electronicsRules)))
    Sample.user Sample.cart = true.
Proof. reflexivity. Qed.

(** ** Sorting with a comparator *)

Section SortFacts.

Context {A : Type} (compareFn : A -> A -> Q).

Hypothesis le_total :
  forall x y, keepsFirst compareFn x y \/ keepsFirst compareFn y x.
Hypothesis le_trans :
  forall x y z, keepsFirst compareFn x y -> keepsFirst compareFn y z ->
                keepsFirst compareFn x z.

Lemma insert_Permutation (x : A) (l : list A) :
  Permutation (Js.insert compareFn x l) (x :: l).
Proof.
  induction l as [|y l IH]; simpl; [reflexivity|].
  destruct (Qle_bool (compareFn x y) 0); [reflexivity|].
  rewrite IH. apply perm_swap.
Qed.

Lemma sort_Permutation (l : list A) : Permutation (Js.sort compareFn l) l.
Proof.
  induction l as [|x l IH]; simpl; [reflexivity|].
  unfold Js.sort in *. simpl. rewrite insert_Permutation. now rewrite IH.
Qed.

Lemma insert_StronglySorted (x : A) (l : list A) :
  StronglySorted (keepsFirst compareFn) l ->
  StronglySorted (keepsFirst compareFn) (Js.insert compareFn x l).
Proof.
  induction 1 as [|y l Hs IH Hall]; simpl.
  - constructor; [constructor | constructor].
  - destruct (Qle_bool (compareFn x y) 0) eqn:E.
    + constructor; [now constructor|].
      constructor; [exact E|].
      eapply List.Forall_impl; [|exact Hall]. intros z Hz.
      now apply le_trans with y.
    + constructor; [exact IH|].
      assert (Hyx : keepsFirst compareFn y x).
      { destruct (le_total x y) as [H|H]; [unfold keepsFirst in H; congruence|exact H]. }
      rewrite List.Forall_forall in *. intros z Hz.
      apply (Permutation_in _ (insert_Permutation x l)) in Hz.
      destruct Hz as [<- | Hz]; [exact Hyx | now apply Hall].
Qed.

Lemma sort_StronglySorted (l : list A) :
  StronglySorted (keepsFirst compareFn) (Js.sort compareFn l).
Proof.
  induction l as [|x l IH]; simpl; [constructor|].
  now apply insert_StronglySorted.
Qed.

Lemma sort_head_least (l : list A) (w : A) :
  List.head (Js.sort compareFn l) = Some w ->
  In w l /\ forall y, In y l -> keepsFirst compareFn w y.
Proof.
  intros Hw.
  pose proof (sort_StronglySorted l) as Hs.
  pose proof (sort_Permutation l) as Hp.
  destruct (Js.sort compareFn l) as [|w' rest]; [discriminate|].
  injection Hw as ->. split.
  - apply (Permutation_in _ Hp). now left.
  - intros y Hy. apply (Permutation_in _ (Permutation_sym Hp)) in Hy.
    inversion Hs as [|? ? _ Hall]; subst.
    destruct Hy as [<- | Hy].
    + destruct (le_total w w); assumption.
    + rewrite List.Forall_forall in Hall. now apply Hall.
Qed.

End SortFacts.

Lemma sort_nonempty {A} (compareFn : A -> A -> Q) (l : list A) :
  l <> [] -> exists w, List.head (Js.sort compareFn l) = Some w.
Proof.
  intros Hl. pose proof (sort_Permutation compareFn l) as Hp.
  destruct (Js.sort compareFn l) as [|w rest]; [|now exists w].
  apply Permutation_nil in Hp. contradiction.
Qed.

(** ** The ranking *)

Section Ranking.

Variable localeCompare : string -> string -> Z.

(** The comparator keeps [a] first exactly when [a] precedes [b]. *)
Lemma compareRanked_precedes (a b : Ranked) :
  keepsFirst (compareRanked localeCompare) a b
  <-> precedes localeCompare a b.
Proof.
  unfold keepsFirst. rewrite Qle_bool_iff. unfold compareRanked, precedes.
  destruct (Qeq_bool (discount b) (discount a)) eqn:Ed; simpl.
  - apply Qeq_bool_iff in Ed.
    destruct (Z.eqb_spec (endDate (coupon a)) (endDate (coupon b))) as [Ee|Ee];
      simpl.
    + rewrite <- (Zle_Qle _ 0). split.
      * intros H. right. split; [lra|]. right. now split.
      * intros [H | (_ & [H | (_ & H)])]; [lra | lia | exact H].
    + rewrite <- (Zle_Qle _ 0). split.
      * intros H. right. split; [lra|]. left. lia.
      * intros [H | (_ & [H | (H & _)])]; [lra | lia | contradiction].
  - apply Qeq_bool_neq in Ed. split.
    + intros H. left.
      destruct (Q_dec (discount b) (discount a)) as [[H1|H1]|H1];
        [exact H1 | lra | contradiction].
    + intros [H | (H & _)]; [lra|]. exfalso. apply Ed. lra.
Qed.

Context {HC : Collation localeCompare}.

Lemma collation_total (a b : string) :
  (localeCompare a b <= 0)%Z \/ (localeCompare b a <= 0)%Z.
Proof.
  destruct (Z.le_gt_cases (localeCompare a b) 0) as [H|H]; [now left|].
  right. apply collation_antisym in H. lia.
Qed.

Lemma precedes_total (a b : Ranked) :
  precedes localeCompare a b \/ precedes localeCompare b a.
Proof.
  unfold precedes.
  destruct (Q_dec (discount a) (discount b)) as [[H|H]|H].
  - right. now left.
  - left. now left.
  - destruct (Z.lt_trichotomy (endDate (coupon a)) (endDate (coupon b)))
      as [He | [He | He]].
    + left. right. split; [exact H | now left].
    + destruct (collation_total (code (coupon a)) (code (coupon b)))
        as [Hc | Hc].
      * left. right. split; [exact H | right; now split].
      * right. right. split; [lra | right; now split].
    + right. right. split; [lra | now left].
Qed.

Lemma precedes_trans (a b c : Ranked) :
  precedes localeCompare a b -> precedes localeCompare b c ->
  precedes localeCompare a c.
Proof.
  unfold precedes.
  intros [H1 | (H1 & X)] [H2 | (H2 & Y)].
  - left. lra.
  - left. lra.
  - left. lra.
  - right. split; [lra|].
    destruct X as [X | (X & Xc)], Y as [Y | (Y & Yc)].
    + left. lia.
    + left. lia.
    + left. lia.
    + right. split; [lia|]. now apply collation_trans with (code (coupon b)).
Qed.

End Ranking.

(** ** The sample host collation is a consistent comparator *)

Lemma lex_opp (a b : list Z) : IcuRoot.lex b a = CompOpp (IcuRoot.lex a b).
Proof.
  revert b. induction a as [|x a IH]; intros [|y b]; simpl; try reflexivity.
  rewrite (Z.compare_antisym x y).
  destruct (x ?= y)%Z; simpl; [apply IH | reflexivity | reflexivity].
Qed.

Lemma lex_Eq (a b : list Z) : IcuRoot.lex a b = Eq -> a = b.
Proof.
  revert b. induction a as [|x a IH]; intros [|y b]; simpl;
    try reflexivity; try discriminate.
  destruct (x ?= y)%Z eqn:E; try discriminate.
  apply Z.compare_eq in E. intros H. f_equal; [exact E | now apply IH].
Qed.

Lemma lex_refl (a : list Z) : IcuRoot.lex a a = Eq.
Proof.
  induction a as [|x a IH]; simpl; [reflexivity|].
  now rewrite Z.compare_refl.
Qed.

Lemma lex_Lt_trans (a b c : list Z) :
  IcuRoot.lex a b = Lt -> IcuRoot.lex b c = Lt -> IcuRoot.lex a c = Lt.
Proof.
  revert b c. induction a as [|x a IH]; intros [|y b] [|z c]; simpl;
    try reflexivity; try discriminate.
  destruct (x ?= y)%Z eqn:E1, (y ?= z)%Z eqn:E2; try discriminate;
    rewrite ?Z.compare_eq_iff, ?Z.compare_lt_iff in *; intros H1 H2.
  - subst. rewrite Z.compare_refl. now apply IH with b.
  - subst. now apply Z.compare_lt_iff in E2 as ->.
  - subst. now apply Z.compare_lt_iff in E1 as ->.
  - assert (H : (x < z)%Z) by lia. now apply Z.compare_lt_iff in H as ->.
Qed.

Lemma lex_le_trans (a b c : list Z) :
  IcuRoot.lex a b <> Gt -> IcuRoot.lex b c <> Gt -> IcuRoot.lex a c <> Gt.
Proof.
  intros H1 H2.
  destruct (IcuRoot.lex a b) eqn:E1; [| |contradiction].
  - apply lex_Eq in E1. now subst.
  - destruct (IcuRoot.lex b c) eqn:E2; [| |contradiction].
    + apply lex_Eq in E2. subst. now rewrite E1.
    + now rewrite (lex_Lt_trans a b c E1 E2).
Qed.

Lemma collate_opp (a b : string) :
  IcuRoot.collate b a = CompOpp (IcuRoot.collate a b).
Proof.
  unfold IcuRoot.collate.
  rewrite (lex_opp (IcuRoot.weights IcuRoot.primary a)).
  destruct (IcuRoot.lex (IcuRoot.weights IcuRoot.primary a)
              (IcuRoot.weights IcuRoot.primary b)); simpl; try reflexivity.
  apply lex_opp.
Qed.

Lemma collate_le_trans (a b c : string) :
  IcuRoot.collate a b <> Gt -> IcuRoot.collate b c <> Gt ->
  IcuRoot.collate a c <> Gt.
Proof.
  unfold IcuRoot.collate.
  destruct (IcuRoot.lex (IcuRoot.weights IcuRoot.primary a)
              (IcuRoot.weights IcuRoot.primary b)) eqn:E1;
    [| |contradiction].
  - apply lex_Eq in E1. rewrite E1.
    destruct (IcuRoot.lex (IcuRoot.weights IcuRoot.primary b)
                (IcuRoot.weights IcuRoot.primary c)) eqn:E2;
      [|discriminate|contradiction].
    apply lex_le_trans.
  - intros _.
    destruct (IcuRoot.lex (IcuRoot.weights IcuRoot.primary b)
                (IcuRoot.weights IcuRoot.primary c)) eqn:E2;
      [| |contradiction]; intros _.
    + apply lex_Eq in E2. rewrite <- E2, E1. discriminate.
    + rewrite (lex_Lt_trans _ _ _ E1 E2). discriminate.
Qed.

Lemma localeCompare_le (a b : string) :
  (IcuRoot.localeCompare a b <= 0)%Z <-> IcuRoot.collate a b <> Gt.
Proof.
  unfold IcuRoot.localeCompare.
  destruct (IcuRoot.collate a b); split; try lia; try discriminate.
  contradiction.
Qed.

#[export] Instance IcuRoot_Collation : Collation IcuRoot.localeCompare.
Proof.
  split.
  - intros a b. unfold IcuRoot.localeCompare. rewrite (collate_opp a b).
    destruct (IcuRoot.collate a b); simpl; lia.
  - intros a b c. rewrite !localeCompare_le. apply collate_le_trans.
Qed.

Lemma StronglySorted_impl {A} (R R' : A -> A -> Prop) (l : list A) :
  (forall x y, R x y -> R' x y) -> StronglySorted R l -> StronglySorted R' l.
Proof.
  intros HR. induction 1 as [|x l Hs IH Hall]; constructor; [exact IH|].
  eapply List.Forall_impl; [|exact Hall]. intros y. apply HR.
Qed.

(** C1 (amended). Under a host whose [localeCompare] is a consistent
    comparator, the ranking is a permutation of the candidates sorted by
    discount descending, then end instant ascending, then code ascending
    in the host's collation, and the winner is its first element: it
    precedes every candidate in that order. *)
Theorem ranking_by_host_collation
    (localeCompare : string -> string -> Z) (l : list Ranked) :
  Collation localeCompare ->
  Permutation (rank localeCompare l) l
  /\ StronglySorted (precedes localeCompare) (rank localeCompare l)
  /\ best localeCompare l = List.head (rank localeCompare l)
  /\ (l <> [] -> exists w, best localeCompare l = Some w)
  /\ (forall w, best localeCompare l = Some w ->
        In w l /\ forall y, In y l -> precedes localeCompare w y).
Proof.
  intros HC.
  assert (Htotal : forall x y : Ranked,
             keepsFirst (compareRanked localeCompare) x y
             \/ keepsFirst (compareRanked localeCompare) y x).
  { intros x y. rewrite !compareRanked_precedes.
    exact (@precedes_total localeCompare HC x y). }
  assert (Htrans : forall x y z : Ranked,
             keepsFirst (compareRanked localeCompare) x y ->
             keepsFirst (compareRanked localeCompare) y z ->
             keepsFirst (compareRanked localeCompare) x z).
  { intros x y z. rewrite !compareRanked_precedes.
    exact (@precedes_trans localeCompare HC x y z). }
  unfold best, rank. repeat split.
  - apply sort_Permutation.
  - eapply StronglySorted_impl;
      [|exact (sort_StronglySorted _ Htotal Htrans l)].
    intros x y. apply compareRanked_precedes.
  - apply sort_nonempty.
  - now apply (sort_head_least _ Htotal Htrans l w).
  - intros y Hy. apply compareRanked_precedes.
    now apply (sort_head_least _ Htotal Htrans l w).
Qed.

Lemma ranking_by_host_collation_witness :
  Permutation
    (rank IcuRoot.localeCompare [Sample.ranked "B"; Sample.ranked "a"])
    [Sample.ranked "B"; Sample.ranked "a"].
Proof.
  exact (proj1 (ranking_by_host_collation IcuRoot.localeCompare
                  [Sample.ranked "B"; Sample.ranked "a"] IcuRoot_Collation)).
Defined.

(** C1 as stated fails under the ICU collation: of two candidates with
    the same discount and the same end instant, the code ["B"] is the
    smaller one by code point, yet ["a"] is ranked first and returned. *)
Lemma ranking_not_by_codepoint :
  (discount (Sample.ranked "a") == discount (Sample.ranked "B"))%Q
  /\ endDate (coupon (Sample.ranked "a")) = endDate (coupon (Sample.ranked "B"))
  /\ String.compare "B" "a" = Lt
  /\ best IcuRoot.localeCompare [Sample.ranked "B"; Sample.ranked "a"]
     = Some (Sample.ranked "a")
  /\ best IcuRoot.localeCompare [Sample.ranked "a"; Sample.ranked "B"]
     = Some (Sample.ranked "a")
  /\ snd (Routes.postBest IcuRoot.localeCompare 5 Sample.tieStore Sample.body)
     = BestCoupon (Some (coupon (Sample.ranked "a"))) 100
  /\ CouponService.findBestCoupon IcuRoot.localeCompare 5
       (coupons Sample.tieStore) Sample.user Sample.cart
     = Some (Sample.ranked "a").
Proof. repeat split; vm_compute; reflexivity. Qed.

(** ** The usage tracker *)

Lemma usageCount_incrementUsage_same
    (m : gmap string (gmap string nat)) (u k : string) :
  Routes.usageCount (Routes.incrementUsage u k m) u k
  = (Routes.usageCount m u k + 1)%nat.
Proof.
  unfold Routes.usageCount, Routes.incrementUsage.
  destruct (m !! u) as [inner|] eqn:E; rewrite ?E;
    now rewrite ?lookup_insert_eq; simpl; rewrite ?lookup_insert_eq.
Qed.

Lemma lookup_incrementUsage_ne
    (m : gmap string (gmap string nat)) (u k u' : string) :
  u' <> u -> Routes.incrementUsage u k m !! u' = m !! u'.
Proof.
  intros Hne. unfold Routes.incrementUsage.
  destruct (m !! u) as [inner|] eqn:E;
    now rewrite !lookup_insert_ne by congruence.
Qed.

Lemma lookup_incrementUsage_inner_ne
    (m : gmap string (gmap string nat)) (u k k' : string) :
  k' <> k ->
  default ∅ (Routes.incrementUsage u k m !! u) !! k' = default ∅ (m !! u) !! k'.
Proof.
  intros Hne. unfold Routes.incrementUsage.
  destruct (m !! u) as [inner|] eqn:E; rewrite ?E;
    rewrite ?lookup_insert_eq; simpl;
    now rewrite lookup_insert_ne by congruence.
Qed.

Lemma usageCount_incrementUsage_other
    (m : gmap string (gmap string nat)) (u k u' k' : string) :
  (u', k') <> (u, k) ->
  Routes.usageCount (Routes.incrementUsage u k m) u' k'
  = Routes.usageCount m u' k'.
Proof.
  intros Hne. unfold Routes.usageCount.
  destruct (decide (u' = u)) as [->|Hu].
  - rewrite lookup_incrementUsage_inner_ne; [reflexivity | congruence].
  - now rewrite lookup_incrementUsage_ne.
Qed.

Lemma incrementUsage_creates
    (m : gmap string (gmap string nat)) (u k : string) :
  m !! u = None -> Routes.incrementUsage u k m !! u = Some {[ k := 1%nat ]}.
Proof.
  intros E. unfold Routes.incrementUsage. rewrite E.
  rewrite !lookup_insert_eq. simpl. rewrite lookup_empty. simpl.
  now rewrite insert_empty.
Qed.

Lemma usageCount_incrementUsage_le
    (m : gmap string (gmap string nat)) (u k u' k' : string) :
  (Routes.usageCount m u' k'
   <= Routes.usageCount (Routes.incrementUsage u k m) u' k')%nat.
Proof.
  destruct (decide ((u', k') = (u, k))) as [[= -> ->]|Hne].
  - rewrite usageCount_incrementUsage_same. lia.
  - now rewrite usageCount_incrementUsage_other.
Qed.

(** ** The selection engine *)

Lemma inWindow_true (now : Z) (c : Coupon) :
  CouponService.inWindow now c = true <-> (startDate c <= now <= endDate c)%Z.
Proof. unfold CouponService.inWindow. lia. Qed.

Lemma keepActive_true
    (now : Z) (usage : gmap string (gmap string nat))
    (u : UserContext) (c : Coupon) :
  Routes.keepActive now usage u c = true <->
  (startDate c <= now <= endDate c)%Z
  /\ (forall limit, usageLimitPerUser c = Some limit ->
        (inject_Z (Z.of_nat (Routes.usageCount usage (userId u) (code c)))
         < limit)%Q).
Proof.
  unfold Routes.keepActive. rewrite <- inWindow_true.
  destruct (CouponService.inWindow now c); [|intuition congruence].
  destruct (usageLimitPerUser c) as [limit|]; [|intuition congruence].
  destruct (Js.ge _ limit) eqn:E.
  - apply js_ge_true in E. split; [discriminate|].
    intros [_ H]. specialize (H limit eq_refl). lra.
  - apply js_ge_false in E. split; [|reflexivity].
    intros _. split; [reflexivity|]. now intros limit' [= <-].
Qed.

Lemma eligibleCoupons_In
    (now : Z) (st : Store) (u : UserContext) (cart : Cart) (c : Coupon) :
  In c (Routes.eligibleCoupons now st u cart) <->
  In c (JsMap.values (coupons st)) /\ survives now st u cart c.
Proof.
  unfold Routes.eligibleCoupons, Routes.activeCoupons, survives.
  rewrite !filter_In, keepActive_true. tauto.
Qed.

(** The two outcomes of the selection. *)
Lemma selectBest_cases
    (localeCompare : string -> string -> Z) (now : Z) (st : Store)
    (u : UserContext) (cart : Cart) :
  (Routes.eligibleCoupons now st u cart = []
   /\ Routes.selectBest localeCompare now st u cart = (st, BestCoupon None 0))
  \/ (exists w,
        best localeCompare
          (withDiscounts cart (Routes.eligibleCoupons now st u cart)) = Some w
        /\ In (coupon w) (Routes.eligibleCoupons now st u cart)
        /\ Routes.selectBest localeCompare now st u cart
           = ({| coupons := coupons st;
                 userUsage :=
                   Routes.incrementUsage (userId u) (code (coupon w))
                     (userUsage st) |},
              BestCoupon (Some (coupon w)) (discount w))).
Proof.
  unfold Routes.selectBest.
  destruct (Routes.eligibleCoupons now st u cart) as [|c l] eqn:E;
    [left; now split|].
  right.
  destruct (sort_nonempty (compareRanked localeCompare)
              (withDiscounts cart (c :: l))) as [w Hw]; [discriminate|].
  exists w. unfold best, rank. rewrite Hw. split; [reflexivity|].
  split; [|reflexivity].
  assert (Hin : In w (withDiscounts cart (c :: l))).
  { apply (Permutation_in _ (sort_Permutation (compareRanked localeCompare) _)).
    destruct (Js.sort _ _); [discriminate|]. injection Hw as ->. now left. }
  unfold withDiscounts in Hin. apply in_map_iff in Hin as (c' & <- & Hc').
  exact Hc'.
Qed.

Lemma postBest_cases
    (localeCompare : string -> string -> Z) (now : Z) (st : Store)
    (body : BestBody) :
  (exists error, Routes.postBest localeCompare now st body = (st, BadRequest error))
  \/ (exists u cartItems,
        b_userContext body = Some u
        /\ b_cart body = Some {| items := Some cartItems |}
        /\ Routes.postBest localeCompare now st body
           = Routes.selectBest localeCompare now st u
               {| items := Some cartItems |}).
Proof.
  unfold Routes.postBest.
  destruct (b_userContext body) as [u|]; [|left; eauto].
  destruct (b_cart body) as [[[cartItems|]]|]; [|left; eauto|left; eauto].
  destruct (_ || _ || _); [left; eauto|].
  destruct (existsb Routes.badItem cartItems); [left; eauto|].
  right. now exists u, cartItems.
Qed.

(** C5. When no coupon of the catalog survives the validity, usage and
    eligibility filters, the selection answers (null, 0) and returns the
    store as it was: the catalog and every usage count are unchanged. *)
Theorem selectBest_none
    (localeCompare : string -> string -> Z) (now : Z) (st : Store)
    (u : UserContext) (cart : Cart) :
  (forall c, In c (JsMap.values (coupons st)) -> ~ survives now st u cart c) ->
  Routes.selectBest localeCompare now st u cart = (st, BestCoupon None 0)
  /\ fst (Routes.postBest localeCompare now st
            {| b_userContext := Some u; b_cart := Some cart |}) = st
  /\ (forall c d,
        snd (Routes.postBest localeCompare now st
               {| b_userContext := Some u; b_cart := Some cart |})
        <> BestCoupon (Some c) d).
Proof.
  intros Hnone.
  assert (He : forall cart', items cart' = items cart ->
                 Routes.eligibleCoupons now st u cart' = []).
  { intros cart' Hc.
    destruct (Routes.eligibleCoupons now st u cart') as [|c l] eqn:E;
      [reflexivity|].
    assert (Hin : In c (Routes.eligibleCoupons now st u cart'))
      by (rewrite E; now left).
    destruct cart as [i], cart' as [i']. simpl in Hc. subst i'.
    apply eligibleCoupons_In in Hin as [Hin Hs].
    exfalso. exact (Hnone c Hin Hs). }
  assert (Hsel : forall cart', items cart' = items cart ->
            Routes.selectBest localeCompare now st u cart'
            = (st, BestCoupon None 0)).
  { intros cart' Hc. unfold Routes.selectBest. now rewrite (He cart' Hc). }
  split; [now apply Hsel|].
  destruct (postBest_cases localeCompare now st
              {| b_userContext := Some u; b_cart := Some cart |})
    as [(error & ->) | (u' & cartItems & Hu & Hcart & ->)]; simpl.
  - split; [reflexivity | discriminate].
  - simpl in Hu, Hcart. injection Hu as <-. injection Hcart as ->.
    rewrite Hsel by reflexivity. split; [reflexivity | discriminate].
Qed.

Lemma selectBest_none_witness :
  Routes.selectBest IcuRoot.localeCompare 5000 Sample.expiredStore
    Sample.user Sample.cart
  = (Sample.expiredStore, BestCoupon None 0).
Proof.
  apply (selectBest_none IcuRoot.localeCompare 5000 Sample.expiredStore
           Sample.user Sample.cart).
  intros c [<- | []] (Hw & _). simpl in Hw. lia.
Defined.

(** C6. A successful selection adds exactly 1 to the usage count of the
    pair (requesting user, winner's code), creating the user's entry when
    it was absent; and no request served by the application lowers any
    usage count. *)
Theorem usage_incremented_and_monotone (localeCompare : string -> string -> Z) :
  (forall now st u cart st' w d,
      Routes.selectBest localeCompare now st u cart
      = (st', BestCoupon (Some w) d) ->
      Routes.usageCount (userUsage st') (userId u) (code w)
      = (Routes.usageCount (userUsage st) (userId u) (code w) + 1)%nat
      /\ is_Some (userUsage st' !! userId u)
      /\ (userUsage st !! userId u = None ->
          userUsage st' !! userId u = Some {[ code w := 1%nat ]}))
  /\ (forall now st req u k,
        (Routes.usageCount (userUsage st) u k
         <= Routes.usageCount
              (userUsage (fst (Routes.handle localeCompare now st req))) u k)%nat)
  /\ (forall reqs st u k,
        (Routes.usageCount (userUsage st) u k
         <= Routes.usageCount
              (userUsage (Routes.serve localeCompare st reqs)) u k)%nat).
Proof.
  assert (Hstep : forall now st req u k,
        (Routes.usageCount (userUsage st) u k
         <= Routes.usageCount
              (userUsage (fst (Routes.handle localeCompare now st req))) u k)%nat).
  { intros now st req u k. destruct req as [|data|body|]; simpl.
    - lia.
    - unfold Routes.postCoupon. destruct (_ <? _)%nat; simpl; lia.
    - destruct (postBest_cases localeCompare now st body)
        as [(error & ->) | (u' & cartItems & _ & _ & ->)]; simpl; [lia|].
      destruct (selectBest_cases localeCompare now st u'
                  {| items := Some cartItems |})
        as [(_ & ->) | (w & _ & _ & ->)]; simpl; [lia|].
      apply usageCount_incrementUsage_le.
    - lia. }
  split; [|split; [exact Hstep|]].
  - intros now st u cart st' w d Hsel.
    destruct (selectBest_cases localeCompare now st u cart)
      as [(_ & E) | (w' & _ & _ & E)]; rewrite E in Hsel.
    + discriminate.
    + injection Hsel as <- <- _. simpl. split; [|split].
      * apply usageCount_incrementUsage_same.
      * destruct (userUsage st !! userId u) as [inner|] eqn:Eu.
        -- unfold Routes.incrementUsage. rewrite Eu, lookup_insert_eq. eauto.
        -- rewrite incrementUsage_creates by exact Eu. eauto.
      * apply incrementUsage_creates.
  - induction reqs as [|[now req] reqs IH]; intros st u k; simpl; [lia|].
    eapply Nat.le_trans; [apply (Hstep now st req u k) | apply IH].
Qed.

Lemma usage_incremented_and_monotone_witness :
  Routes.usageCount
    (userUsage
       (fst (Routes.selectBest IcuRoot.localeCompare 5 Sample.limitedStore
               Sample.user Sample.cart)))
    "u123" "LIMITED" = 1%nat.
Proof.
  exact (proj1 (proj1 (usage_incremented_and_monotone IcuRoot.localeCompare)
                  5%Z Sample.limitedStore Sample.user Sample.cart
                  _ _ _ eq_refl)).
Defined.

(** C10. On a successful selection the catalog is unchanged and so is the
    usage entry of every pair other than (requesting user, winner's
    code). *)
Theorem selectBest_frame
    (localeCompare : string -> string -> Z) (now : Z) (st st' : Store)
    (u : UserContext) (cart : Cart) (w : Coupon) (d : Q) :
  Routes.selectBest localeCompare now st u cart
  = (st', BestCoupon (Some w) d) ->
  coupons st' = coupons st
  /\ (forall u', u' <> userId u -> userUsage st' !! u' = userUsage st !! u')
  /\ (forall k', k' <> code w ->
        default ∅ (userUsage st' !! userId u) !! k'
        = default ∅ (userUsage st !! userId u) !! k')
  /\ (forall u' k', (u', k') <> (userId u, code w) ->
        Routes.usageCount (userUsage st') u' k'
        = Routes.usageCount (userUsage st) u' k').
Proof.
  intros Hsel.
  destruct (selectBest_cases localeCompare now st u cart)
    as [(_ & E) | (w' & _ & _ & E)]; rewrite E in Hsel; [discriminate|].
  injection Hsel as <- <- _. simpl. repeat split.
  - intros u' Hu. now apply lookup_incrementUsage_ne.
  - intros k' Hk. now apply lookup_incrementUsage_inner_ne.
  - intros u' k' Hne. now apply usageCount_incrementUsage_other.
Qed.

Lemma selectBest_frame_witness :
  coupons (fst (Routes.selectBest IcuRoot.localeCompare 5 Sample.limitedStore
                  Sample.user Sample.cart))
  = coupons Sample.limitedStore.
Proof.
  exact (proj1 (selectBest_frame IcuRoot.localeCompare 5 Sample.limitedStore
                  _ Sample.user Sample.cart _ _ eq_refl)).
Defined.

(** ** The catalog-level filter of [CouponService] *)

Lemma filter_map_comm {A B} (f : B -> bool) (g : A -> B) (l : list A) :
  List.filter f (List.map g l) = List.map g (List.filter (fun x => f (g x)) l).
Proof.
  induction l as [|x l IH]; simpl; [reflexivity|].
  destruct (f (g x)); simpl; now rewrite IH.
Qed.

Lemma values_map {V} (g : V -> V) (m : JsMap V) :
  JsMap.values (List.map (fun kc => (fst kc, g (snd kc))) m)
  = List.map g (JsMap.values m).
Proof.
  unfold JsMap.values. induction m as [|[k v] m IH]; simpl; [reflexivity|].
  now rewrite IH.
Qed.

(** C9. [CouponService.filterActiveCoupons] returns, in catalog order,
    exactly the coupons whose window [startDate, endDate] contains the
    current instant, both ends included.  The result does not depend on
    the coupons' usage limits, nor on the user, nor on any recorded usage:
    a coupon whose limit is reached in the store is still returned. *)
Theorem filterActiveCoupons_window
    (now : Z) (catalog : JsMap Coupon) (u : UserContext) :
  CouponService.filterActiveCoupons now catalog u
  = List.filter
      (fun c => Z.leb (startDate c) now && Z.leb now (endDate c))
      (JsMap.values catalog)
  /\ (forall c,
        In c (CouponService.filterActiveCoupons now catalog u) <->
        In c (JsMap.values catalog) /\ (startDate c <= now <= endDate c)%Z)
  /\ (forall limitOf : Coupon -> option Q,
        CouponService.filterActiveCoupons now
          (List.map (fun kc => (fst kc, withUsageLimit (snd kc) (limitOf (snd kc))))
             catalog) u
        = List.map (fun c => withUsageLimit c (limitOf c))
            (CouponService.filterActiveCoupons now catalog u))
  /\ (forall u', CouponService.filterActiveCoupons now catalog u'
                 = CouponService.filterActiveCoupons now catalog u)
  /\ (forall (st : Store) c limit,
        coupons st = catalog ->
        In c (JsMap.values catalog) ->
        (startDate c <= now <= endDate c)%Z ->
        usageLimitPerUser c = Some limit ->
        (limit <= inject_Z (Z.of_nat
                    (Routes.usageCount (userUsage st) (userId u) (code c))))%Q ->
        In c (CouponService.filterActiveCoupons now catalog u)
        /\ ~ In c (Routes.activeCoupons now st u)).
Proof.
  assert (Hf : forall l : list Coupon,
    List.filter
      (fun c => if CouponService.inWindow now c
                then match usageLimitPerUser c with
                     | Some _ => true
                     | None => true
                     end
                else false) l
    = List.filter
        (fun c => Z.leb (startDate c) now && Z.leb now (endDate c)) l).
  { intros l. apply filter_ext. intros c. unfold CouponService.inWindow.
    rewrite Z.geb_leb.
    destruct (_ && _); [now destruct (usageLimitPerUser c) | reflexivity]. }
  assert (Hin : forall c,
        In c (CouponService.filterActiveCoupons now catalog u) <->
        In c (JsMap.values catalog) /\ (startDate c <= now <= endDate c)%Z).
  { intros c. unfold CouponService.filterActiveCoupons.
    rewrite Hf, filter_In, andb_true_iff, !Z.leb_le. tauto. }
  split; [apply Hf|]. split; [exact Hin|]. split; [|split].
  - intros limitOf. unfold CouponService.filterActiveCoupons.
    pose proof (values_map (fun c => withUsageLimit c (limitOf c)) catalog)
      as Hv.
    cbv beta in Hv. rewrite !Hf, Hv, filter_map_comm. reflexivity.
  - reflexivity.
  - intros st c limit Hst Hc Hw Hlimit Hcount. split.
    + apply Hin. now split.
    + intros Hk. subst catalog. unfold Routes.activeCoupons in Hk.
      apply filter_In in Hk as [_ Hk]. apply keepActive_true in Hk as [_ Hk].
      specialize (Hk limit Hlimit). lra.
Qed.

(** ** The per-user limit *)

(** The usage filter of the selection, on the stored record: a coupon in
    its window with limit [limit] is kept exactly below the limit, and a
    coupon without limit is kept. *)
Lemma usage_filter_on_record
    (now : Z) (usage : gmap string (gmap string nat))
    (u : UserContext) (c : Coupon) :
  (startDate c <= now <= endDate c)%Z ->
  (forall limit, usageLimitPerUser c = Some limit ->
     (Routes.keepActive now usage u c = true <->
      (inject_Z (Z.of_nat (Routes.usageCount usage (userId u) (code c)))
       < limit)%Q))
  /\ (usageLimitPerUser c = None -> Routes.keepActive now usage u c = true).
Proof.
  intros Hw. split.
  - intros limit E. rewrite keepActive_true. split.
    + intros [_ H]. now apply H.
    + intros H. split; [exact Hw|]. intros limit'. rewrite E.
      now intros [= <-].
  - intros E. apply keepActive_true. split; [exact Hw|].
    intros limit. rewrite E. discriminate.
Qed.

(** No record built by the constructor carries the limit 0. *)
Lemma new_limit_nonzero (data : CouponData) (limit : Q) :
  usageLimitPerUser (CouponModel.new data) = Some limit -> ~ (limit == 0)%Q.
Proof.
  simpl. unfold Js.orNull.
  destruct (d_usageLimitPerUser data) as [q|]; [|discriminate].
  destruct (Qeq_bool q 0) eqn:E; [discriminate|].
  intros [= <-]. now apply Qeq_bool_neq.
Qed.


(** ** The other selection, and the repository's scenarios *)

(** [CouponService.findBestCoupon] answers a bare [null] when no coupon
    is in its window and eligible. *)
Lemma findBestCoupon_null
    (localeCompare : string -> string -> Z) (now : Z)
    (catalog : JsMap Coupon) (u : UserContext) (cart : Cart) :
  (forall c, In c (JsMap.values catalog) ->
     (startDate c <= now <= endDate c)%Z ->
     EligibilityService.checkEligibility c u cart = false) ->
  CouponService.findBestCoupon localeCompare now catalog u cart = None.
Proof.
  intros Hnone. unfold CouponService.findBestCoupon.
  destruct (List.filter _ (CouponService.filterActiveCoupons now catalog u))
    as [|c l] eqn:E; [reflexivity|].
  assert (Hin : In c (c :: l)) by now left.
  rewrite <- E in Hin. apply filter_In in Hin as [Hin Helig].
  unfold CouponService.filterActiveCoupons in Hin.
  apply filter_In in Hin as [Hin Hw].
  destruct (CouponService.inWindow now c) eqn:Ew; [|discriminate].
  apply inWindow_true in Ew. rewrite (Hnone c Hin Ew) in Helig. discriminate.
Qed.

(** Widening the submitted rules widens the stored ones: the
    normalisation of the constructor keeps supersets. *)
Lemma normalizeEligibility_widens (old new : Eligibility) :
  widens old new ->
  widens (CouponModel.normalizeEligibility old)
    (CouponModel.normalizeEligibility new).
Proof.
  intros W. destruct W as [W1 W2 W3 W4 W5 W6 W7 W8 W9].
  constructor; simpl; try assumption.
  - destruct W3 as [-> | (A & B & -> & -> & Hsub)]; [now left|].
    right. exists (List.map Js.toLowerCase A), (List.map Js.toLowerCase B).
    repeat split. intros x Hx. apply in_map_iff in Hx as (y & <- & Hy).
    apply in_map. now apply Hsub.
  - now rewrite W9.
Qed.

(** With a limit of 1, the first selection returns the coupon and the
    repeated one returns (null, 0). *)
Example limited_coupon_used_once :
  let r1 := Routes.handle IcuRoot.localeCompare 5 Sample.limitedStore
              (PostBest Sample.body) in
  let r2 := Routes.handle IcuRoot.localeCompare 5 (fst r1)
              (PostBest Sample.body) in
  snd r1 = BestCoupon
             (Some (CouponModel.new (Sample.flat "LIMITED" 100 (Some 1%Q) None)))
             100
  /\ snd r2 = BestCoupon None 0.
Proof. split; vm_compute; reflexivity. Qed.

(** Equal discount and end instant: "A_COUPON" is returned, not
    "Z_COUPON". *)
Example tie_break_by_code :
  snd (Routes.handle IcuRoot.localeCompare 5 Sample.tieBreakStore
         (PostBest Sample.body))
  = BestCoupon (Some (CouponModel.new (Sample.flat "A_COUPON" 100 None None))) 100.
Proof. vm_compute; reflexivity. Qed.

(** Cart value 1000, FLAT 50 and FLAT 100: FLAT 100 with discount 100. *)
Example highest_discount_wins :
  snd (Routes.handle IcuRoot.localeCompare 5 Sample.flatStore
         (PostBest Sample.body))
  = BestCoupon (Some (CouponModel.new (Sample.flat "FLAT100" 100 None None))) 100.
Proof. vm_compute; reflexivity. Qed.

(** * Further properties of the code *)

(** ** [Coupon.validate] *)

Lemma app_nil_iff {A} (l1 l2 : list A) :
  (l1 ++ l2)%list = [] <-> l1 = [] /\ l2 = [].
Proof.
  split; [apply app_eq_nil|]. now intros [-> ->].
Qed.

Lemma check_nil (failed : bool) (msg : string) :
  CouponModel.check failed msg = [] <-> failed = false.
Proof. destruct failed; simpl; intuition congruence. Qed.

Lemma negative_false (x : option Q) :
  CouponModel.negative x = false <-> nonNegative x.
Proof.
  unfold CouponModel.negative, nonNegative. destruct x as [q|].
  - rewrite js_lt_false. split; [now intros H q' [= <-] | now intros H; apply H].
  - split; [intros _ q; discriminate | reflexivity].
Qed.

Lemma Qle_bool_false (a b : Q) : Qle_bool a b = false <-> (b < a)%Q.
Proof.
  split.
  - intros H. apply Qnot_le_lt. intros Hle. apply Qle_bool_iff in Hle.
    congruence.
  - intros H. destruct (Qle_bool a b) eqn:E; [|reflexivity].
    apply Qle_bool_iff in E. lra.
Qed.

Lemma isBlank_empty_code (s : string) :
  (if String.eqb s "" then ["code is required and must be a string"]
   else CouponModel.check (Js.isBlank s) "code cannot be empty") = []
  <-> Js.isBlank s = false.
Proof.
  destruct (String.eqb_spec s "") as [->|Hne]; simpl.
  - intuition congruence.
  - apply check_nil.
Qed.

Lemma validate_nil (data : CouponData) :
  CouponModel.validate data = [] <-> acceptable data.
Proof.
  unfold CouponModel.validate, acceptable.
  rewrite !app_nil_iff, isBlank_empty_code, !check_nil, negative_false.
  rewrite negb_false_iff, Qle_bool_false, Z.gtb_ltb, Z.ltb_ge.
  assert (Hdesc : String.eqb (d_description data) "" = false
                  <-> d_description data <> "").
  { apply String.eqb_neq. }
  assert (Htype : Js.includes ["FLAT"; "PERCENT"] (d_discountType data) = true
                  <-> d_discountType data = "FLAT"
                      \/ d_discountType data = "PERCENT").
  { rewrite includes_In. simpl. intuition congruence. }
  assert (Hcap : match d_maxDiscountAmount data with
                 | Some m => Qle_bool m 0
                 | None => false
                 end = false
                 <-> forall m, d_maxDiscountAmount data = Some m -> (0 < m)%Q).
  { destruct (d_maxDiscountAmount data) as [m|].
    - rewrite Qle_bool_false. split; [now intros H m' [= <-] | now intros H; apply H].
    - split; [intros _ m; discriminate | reflexivity]. }
  assert (Helig :
    match d_eligibility data with
    | Some e =>
        (CouponModel.check (CouponModel.negative (minLifetimeSpend e))
          "eligibility.minLifetimeSpend must be a non-negative number if provided"
        ++ CouponModel.check (CouponModel.negative (minOrdersPlaced e))
          "eligibility.minOrdersPlaced must be a non-negative number if provided"
        ++ CouponModel.check (CouponModel.negative (minCartValue e))
          "eligibility.minCartValue must be a non-negative number if provided"
        ++ CouponModel.check (CouponModel.negative (minItemsCount e))
          "eligibility.minItemsCount must be a non-negative number if provided")%list
    | None => []
    end = []
    <-> forall e, d_eligibility data = Some e ->
          nonNegative (minLifetimeSpend e)
          /\ nonNegative (minOrdersPlaced e)
          /\ nonNegative (minCartValue e)
          /\ nonNegative (minItemsCount e)).
  { destruct (d_eligibility data) as [e|].
    - rewrite !app_nil_iff, !check_nil, !negative_false.
      split; [now intros H e' [= <-] | now intros H; apply H].
    - split; [intros _ e; discriminate | reflexivity]. }
  rewrite Hdesc, Htype, Hcap, Helig. tauto.
Qed.


(** ** The catalog map and [POST /coupons] *)

Lemma get_set_eq {V} (k : string) (v : V) (m : JsMap V) :
  JsMap.get k (JsMap.set k v m) = Some v.
Proof.
  induction m as [|[k' v'] m IH]; simpl.
  - now rewrite String.eqb_refl.
  - destruct (String.eqb_spec k' k) as [->|Hne]; simpl.
    + now rewrite String.eqb_refl.
    + destruct (String.eqb_spec k' k); [contradiction | exact IH].
Qed.

Lemma get_set_ne {V} (k k' : string) (v : V) (m : JsMap V) :
  k' <> k -> JsMap.get k' (JsMap.set k v m) = JsMap.get k' m.
Proof.
  intros Hne. induction m as [|[k0 v0] m IH]; simpl.
  - destruct (String.eqb_spec k k'); [congruence | reflexivity].
  - destruct (String.eqb_spec k0 k) as [->|Hk]; simpl.
    + destruct (String.eqb_spec k k'); [congruence | reflexivity].
    + destruct (String.eqb_spec k0 k'); [reflexivity | exact IH].
Qed.

Lemma In_set {V} (k k' : string) (v v' : V) (m : JsMap V) :
  In (k', v') (JsMap.set k v m) -> (k' = k /\ v' = v) \/ In (k', v') m.
Proof.
  induction m as [|[k0 v0] m IH]; simpl.
  - intros [[= <- <-] | []]. now left.
  - destruct (String.eqb_spec k0 k) as [->|Hk]; simpl.
    + intros [[= <- <-] | H]; [now left | right; now right].
    + intros [H | H]; [right; now left|].
      destruct (IH H) as [H' | H']; [now left | right; now right].
Qed.

Lemma keys_set {V} (k : string) (v : V) (m : JsMap V) :
  List.map fst (JsMap.set k v m)
  = match JsMap.get k m with
    | Some _ => List.map fst m
    | None => (List.map fst m ++ [k])%list
    end.
Proof.
  induction m as [|[k0 v0] m IH]; simpl; [reflexivity|].
  destruct (String.eqb_spec k0 k) as [->|Hk]; simpl; [reflexivity|].
  rewrite IH. now destruct (JsMap.get k m).
Qed.

Lemma get_None_keys {V} (k : string) (m : JsMap V) :
  JsMap.get k m = None <-> ~ In k (List.map fst m).
Proof.
  induction m as [|[k0 v0] m IH]; simpl; [intuition congruence|].
  destruct (String.eqb_spec k0 k) as [->|Hk].
  - split; [discriminate | intros H; exfalso; apply H; now left].
  - rewrite IH. intuition congruence.
Qed.

Lemma values_set_fresh {V} (k : string) (v : V) (m : JsMap V) :
  JsMap.get k m = None ->
  JsMap.values (JsMap.set k v m) = (JsMap.values m ++ [v])%list.
Proof.
  unfold JsMap.values. induction m as [|[k0 v0] m IH]; simpl; [reflexivity|].
  destruct (String.eqb_spec k0 k) as [->|Hk]; [discriminate|].
  intros H. simpl. now rewrite IH.
Qed.

Lemma length_set_present {V} (k : string) (v : V) (m : JsMap V) :
  JsMap.get k m <> None -> length (JsMap.set k v m) = length m.
Proof.
  induction m as [|[k0 v0] m IH]; simpl; [congruence|].
  destruct (String.eqb_spec k0 k) as [->|Hk]; simpl; [reflexivity|].
  intros H. now rewrite IH.
Qed.

Lemma postCoupon_accepted (st : Store) (data : CouponData) :
  CouponModel.validate data = [] ->
  Routes.postCoupon st data
  = ({| coupons :=
          JsMap.set (d_code data) (CouponModel.new data) (coupons st);
        userUsage := userUsage st |},
     Created (CouponModel.new data)).
Proof. intros H. unfold Routes.postCoupon. now rewrite H. Qed.

Lemma postCoupon_rejected (st : Store) (data : CouponData) :
  CouponModel.validate data <> [] ->
  Routes.postCoupon st data
  = (st, ValidationFailed (CouponModel.validate data)).
Proof.
  intros H. unfold Routes.postCoupon.
  destruct (CouponModel.validate data); [contradiction | reflexivity].
Qed.

(** X2. An accepted [POST /coupons] is an upsert by code: afterwards the
    catalog holds, under the submitted code, exactly the coupon built
    from the body (nothing of a previous coupon of that code is kept);
    every other code keeps its coupon; the usage counts are untouched; a
    new code is listed last and an existing code keeps the size of the
    catalog. *)
Theorem postCoupon_upsert (st : Store) (data : CouponData) :
  CouponModel.validate data = [] ->
  snd (Routes.postCoupon st data) = Created (CouponModel.new data)
  /\ JsMap.get (d_code data) (coupons (fst (Routes.postCoupon st data)))
     = Some (CouponModel.new data)
  /\ (forall k, k <> d_code data ->
        JsMap.get k (coupons (fst (Routes.postCoupon st data)))
        = JsMap.get k (coupons st))
  /\ userUsage (fst (Routes.postCoupon st data)) = userUsage st
  /\ (JsMap.get (d_code data) (coupons st) = None ->
      JsMap.values (coupons (fst (Routes.postCoupon st data)))
      = (JsMap.values (coupons st) ++ [CouponModel.new data])%list)
  /\ (JsMap.get (d_code data) (coupons st) <> None ->
      length (coupons (fst (Routes.postCoupon st data)))
      = length (coupons st)).
Proof.
  intros Hv. rewrite (postCoupon_accepted st data Hv). simpl.
  split; [reflexivity|]. split; [apply get_set_eq|].
  split; [intros k Hk; now apply get_set_ne|].
  split; [reflexivity|].
  split; [apply values_set_fresh | apply length_set_present].
Qed.

Lemma postCoupon_upsert_witness :
  JsMap.get "FLAT50"
    (coupons (fst (Routes.postCoupon Sample.flatStore
                     (Sample.flat "FLAT50" 75 None None))))
  = Some (CouponModel.new (Sample.flat "FLAT50" 75 None None)).
Proof.
  exact (proj1 (proj2 (postCoupon_upsert Sample.flatStore
                         (Sample.flat "FLAT50" 75 None None) eq_refl))).
Defined.

(** ** What every request keeps of the catalog *)

Lemma handle_coupons
    (localeCompare : string -> string -> Z) (now : Z) (st : Store)
    (req : Request) :
  coupons (fst (Routes.handle localeCompare now st req)) = coupons st
  \/ exists data,
       CouponModel.validate data = []
       /\ coupons (fst (Routes.handle localeCompare now st req))
          = JsMap.set (d_code data) (CouponModel.new data) (coupons st).
Proof.
  destruct req as [|data|body|]; simpl; try (now left).
  - destruct (CouponModel.validate data) as [|e l] eqn:E.
    + right. exists data. split; [exact E|].
      now rewrite (postCoupon_accepted st data E).
    + left. rewrite postCoupon_rejected; [reflexivity | congruence].
  - left.
    destruct (postBest_cases localeCompare now st body)
      as [(error & ->) | (u & cartItems & _ & _ & ->)]; [reflexivity|].
    destruct (selectBest_cases localeCompare now st u
                {| items := Some cartItems |})
      as [(_ & ->) | (w & _ & _ & ->)]; reflexivity.
Qed.

Lemma NoDup_snoc {A} (l : list A) (x : A) :
  List.NoDup l -> ~ In x l -> List.NoDup (l ++ [x]).
Proof.
  induction l as [|y l IH]; simpl; intros Hl Hx.
  - constructor; [intros [] | constructor].
  - apply List.NoDup_cons_iff in Hl as [Hy Hl].
    apply List.NoDup_cons_iff. split.
    + rewrite in_app_iff. simpl. intuition congruence.
    + apply IH; tauto.
Qed.

Lemma keyedByCode_set (c : Coupon) (m : JsMap Coupon) :
  keyedByCode m -> keyedByCode (JsMap.set (code c) c m).
Proof.
  intros [Hnd Hk]. split.
  - rewrite keys_set. destruct (JsMap.get (code c) m) eqn:E; [exact Hnd|].
    apply NoDup_snoc; [exact Hnd | now apply get_None_keys].
  - intros k c' Hin. apply In_set in Hin as [[-> ->] | Hin];
      [reflexivity | now apply Hk].
Qed.

Lemma keyed_get (m : JsMap Coupon) (k : string) (c : Coupon) :
  List.NoDup (List.map fst m) -> In (k, c) m -> JsMap.get k m = Some c.
Proof.
  induction m as [|[k0 c0] m IH]; simpl; [tauto|].
  intros Hnd [[= -> ->] | Hin].
  - now rewrite String.eqb_refl.
  - apply List.NoDup_cons_iff in Hnd as [Hk0 Hnd].
    destruct (String.eqb_spec k0 k) as [->|Hne]; [|now apply IH].
    exfalso. apply Hk0. apply in_map_iff. now exists (k, c).
Qed.

Lemma serve_invariant
    (localeCompare : string -> string -> Z) (P : JsMap Coupon -> Prop) :
  (forall m data, CouponModel.validate data = [] -> P m ->
     P (JsMap.set (d_code data) (CouponModel.new data) m)) ->
  forall reqs st, P (coupons st) ->
    P (coupons (Routes.serve localeCompare st reqs)).
Proof.
  intros Hset. induction reqs as [|[now req] reqs IH]; intros st HP; simpl;
    [exact HP|].
  apply IH.
  destruct (handle_coupons localeCompare now st req)
    as [-> | (data & Hv & ->)]; [exact HP | now apply Hset].
Qed.

(** X3. Whatever requests are served, the catalog stays keyed by code:
    no code is listed twice, every coupon sits under its own code, and
    looking a listed coupon up by its code gives that coupon. *)
Theorem catalog_keyed_by_code
    (localeCompare : string -> string -> Z) (reqs : list (Z * Request))
    (st : Store) :
  keyedByCode (coupons st) ->
  keyedByCode (coupons (Routes.serve localeCompare st reqs))
  /\ (forall c,
        In c (JsMap.values (coupons (Routes.serve localeCompare st reqs))) ->
        JsMap.get (code c) (coupons (Routes.serve localeCompare st reqs))
        = Some c).
Proof.
  intros H0.
  assert (Hk : keyedByCode (coupons (Routes.serve localeCompare st reqs))).
  { apply (serve_invariant localeCompare keyedByCode); [|exact H0].
    intros m data _ Hm. exact (keyedByCode_set (CouponModel.new data) m Hm). }
  split; [exact Hk|].
  intros c Hc. destruct Hk as [Hnd Hcode].
  unfold JsMap.values in Hc. apply in_map_iff in Hc as ([k c'] & Hs & Hin).
  simpl in Hs. subst c'. rewrite (Hcode k c Hin). now apply keyed_get.
Qed.

Lemma catalog_keyed_by_code_witness :
  keyedByCode
    (coupons
       (Routes.serve IcuRoot.localeCompare Sample.empty
          [(5%Z, PostCoupon (Sample.flat "A" 10 None None));
           (6%Z, PostBest Sample.body);
           (7%Z, PostCoupon (Sample.flat "A" 20 None None))])).
Proof.
  apply (catalog_keyed_by_code IcuRoot.localeCompare
           [(5%Z, PostCoupon (Sample.flat "A" 10 None None));
            (6%Z, PostBest Sample.body);
            (7%Z, PostCoupon (Sample.flat "A" 20 None None))]
           Sample.empty).
  split; simpl; [constructor | tauto].
Defined.

Lemma orNull_Some (x : option Q) (q : Q) :
  Js.orNull x = Some q -> x = Some q /\ ~ (q == 0)%Q.
Proof.
  unfold Js.orNull. destruct x as [y|]; [|discriminate].
  destruct (Qeq_bool y 0) eqn:E; [discriminate|].
  intros [= <-]. split; [reflexivity | now apply Qeq_bool_neq].
Qed.

Lemma validate_storedWell (data : CouponData) :
  CouponModel.validate data = [] -> storedWell (CouponModel.new data).
Proof.
  intros Hv. apply validate_nil in Hv.
  destruct Hv as (Hcode & _ & Htype & Hval & Hcap & Hdate & Hlimit & _).
  unfold storedWell. simpl.
  split; [exact Hcode|]. split; [exact Htype|]. split; [exact Hval|].
  split; [|split; [exact Hdate|]].
  - intros cap Hc. apply orNull_Some in Hc as [Hc _]. now apply Hcap.
  - intros limit Hl. apply orNull_Some in Hl as [Hl Hnz].
    specialize (Hlimit limit Hl).
    destruct (Qle_lt_or_eq _ _ Hlimit) as [H | H]; [exact H|].
    exfalso. apply Hnz. now symmetry.
Qed.

(** X4. Whatever requests are served, every coupon of the catalog is one
    that validation let through: a code that is not blank, type FLAT or
    PERCENT, a positive discount value, a positive cap or none, a start
    not after the end, and a positive per-user limit or none (a limit of
    0 is never stored). *)
Theorem catalog_coupons_validated
    (localeCompare : string -> string -> Z) (reqs : list (Z * Request))
    (st : Store) :
  (forall c, In c (JsMap.values (coupons st)) -> storedWell c) ->
  forall c,
    In c (JsMap.values (coupons (Routes.serve localeCompare st reqs))) ->
    storedWell c.
Proof.
  apply (serve_invariant localeCompare
           (fun m => forall c, In c (JsMap.values m) -> storedWell c)).
  intros m data Hv Hm c Hc.
  unfold JsMap.values in Hc. apply in_map_iff in Hc as ([k c'] & Hs & Hin).
  simpl in Hs. subst c'. apply In_set in Hin as [[_ ->] | Hin].
  - now apply validate_storedWell.
  - apply Hm. unfold JsMap.values. apply in_map_iff. now exists (k, c).
Qed.

Lemma catalog_coupons_validated_witness :
  storedWell (CouponModel.new (Sample.flat "A" 20 None None)).
Proof.
  apply (catalog_coupons_validated IcuRoot.localeCompare
           [(5%Z, PostCoupon (Sample.flat "A" 10 None None));
            (7%Z, PostCoupon (Sample.flat "A" 20 None None))]
           Sample.empty).
  - intros c [].
  - simpl. now left.
Defined.

(** ** [POST /coupons/best]: the input checks and the answer *)

Lemma badItem_false (item : Item) :
  Routes.badItem item = false <-> productId item <> "" /\ category item <> "".
Proof.
  unfold Routes.badItem. rewrite orb_false_iff, !String.eqb_neq. tauto.
Qed.

Lemma existsb_badItem_false (l : list Item) :
  existsb Routes.badItem l = false <->
  forall item, In item l -> productId item <> "" /\ category item <> "".
Proof.
  induction l as [|x l IH]; simpl.
  - split; [intros _ item [] | reflexivity].
  - rewrite orb_false_iff, IH, badItem_false. split.
    + intros [Hx Hl] item [<- | Hin]; [exact Hx | now apply Hl].
    + intros H. split; [apply H; now left | intros item Hin; apply H; now right].
Qed.

Lemma postBest_split
    (localeCompare : string -> string -> Z) (now : Z) (st : Store)
    (body : BestBody) :
  (exists u cartItems,
      wellFormed body u cartItems
      /\ Routes.postBest localeCompare now st body
         = Routes.selectBest localeCompare now st u
             {| items := Some cartItems |})
  \/ ((forall u cartItems, ~ wellFormed body u cartItems)
      /\ exists error,
           Routes.postBest localeCompare now st body = (st, BadRequest error)).
Proof.
  unfold Routes.postBest, wellFormed.
  destruct (b_userContext body) as [u|];
    [|right; split; [intros u l (H & _); discriminate | eauto]].
  destruct (b_cart body) as [[[cartItems|]]|];
    [| right; split; [intros u' l (_ & H & _); discriminate | eauto]
     | right; split; [intros u' l (_ & H & _); discriminate | eauto]].
  destruct (String.eqb_spec (userId u) "") as [Hi|Hi]; simpl;
    [right; split; [intros u' l ([= <-] & _ & H & _); contradiction | eauto]|].
  destruct (String.eqb_spec (userTier u) "") as [Ht|Ht]; simpl;
    [right; split; [intros u' l ([= <-] & _ & _ & H & _); contradiction | eauto]|].
  destruct (String.eqb_spec (country u) "") as [Hc|Hc]; simpl;
    [right; split;
       [intros u' l ([= <-] & _ & _ & _ & H & _); contradiction | eauto]|].
  destruct (existsb Routes.badItem cartItems) eqn:Hb.
  - right. split; [|eauto].
    intros u' l ([= <-] & [= <-] & _ & _ & _ & H).
    apply existsb_badItem_false in H. congruence.
  - left. exists u, cartItems. repeat split; try assumption;
      now apply (proj1 (existsb_badItem_false cartItems) Hb).
Qed.

Lemma selectBest_answer
    (localeCompare : string -> string -> Z) (now : Z) (st : Store)
    (u : UserContext) (cart : Cart) :
  exists c d, snd (Routes.selectBest localeCompare now st u cart) = BestCoupon c d.
Proof.
  destruct (selectBest_cases localeCompare now st u cart)
    as [(_ & ->) | (w & _ & _ & ->)]; simpl; eauto.
Qed.

(** X5. [POST /coupons/best] answers with a 400 error exactly when the
    body is not well formed - no user context, no cart or no item list,
    an empty userId, userTier or country, or a cart line with an empty
    productId or category - and then it leaves the store as it was; the
    sign of prices and quantities is not checked. *)
Theorem postBest_bad_request
    (localeCompare : string -> string -> Z) (now : Z) (st : Store)
    (body : BestBody) :
  ((exists error,
       snd (Routes.postBest localeCompare now st body) = BadRequest error)
   <-> forall u cartItems, ~ wellFormed body u cartItems)
  /\ ((exists error,
         snd (Routes.postBest localeCompare now st body) = BadRequest error)
      -> fst (Routes.postBest localeCompare now st body) = st).
Proof.
  destruct (postBest_split localeCompare now st body)
    as [(u & cartItems & Hwf & E) | (Hnot & error & E)]; rewrite E.
  - destruct (selectBest_answer localeCompare now st u
                {| items := Some cartItems |}) as (c & d & Hr).
    rewrite Hr. split; [split|].
    + intros (error & He). discriminate.
    + intros H. exfalso. exact (H u cartItems Hwf).
    + intros (error & He). discriminate.
  - simpl. split; [split|]; eauto.
Qed.

Lemma best_In
    (localeCompare : string -> string -> Z) (l : list Ranked) (w : Ranked) :
  best localeCompare l = Some w -> In w l.
Proof.
  unfold best, rank. intros Hw.
  apply (Permutation_in _ (sort_Permutation (compareRanked localeCompare) l)).
  destruct (Js.sort _ l); [discriminate|]. injection Hw as ->. now left.
Qed.

Lemma withDiscounts_In (cart : Cart) (l : list Coupon) (w : Ranked) :
  In w (withDiscounts cart l) ->
  In (coupon w) l
  /\ discount w = DiscountService.calculateDiscount (coupon w) cart.
Proof.
  unfold withDiscounts. intros H.
  apply in_map_iff in H as (c & <- & Hc). now split.
Qed.

(** X6. A coupon returned by [POST /coupons/best] is a coupon of the
    catalog that is inside its validity window at the instant of the
    request, below its per-user limit for the requesting user, and
    eligible for the user and the cart; the discount returned with it is
    the one [calculateDiscount] gives for that coupon and that cart.  In
    particular an expired or used-up coupon is never returned. *)
Theorem postBest_sound
    (localeCompare : string -> string -> Z) (now : Z) (st st' : Store)
    (body : BestBody) (w : Coupon) (d : Q) :
  Routes.postBest localeCompare now st body = (st', BestCoupon (Some w) d) ->
  exists u cartItems,
    wellFormed body u cartItems
    /\ In w (JsMap.values (coupons st))
    /\ survives now st u {| items := Some cartItems |} w
    /\ d = DiscountService.calculateDiscount w {| items := Some cartItems |}.
Proof.
  intros Hpost.
  destruct (postBest_split localeCompare now st body)
    as [(u & cartItems & Hwf & E) | (_ & error & E)];
    rewrite E in Hpost; [|discriminate].
  exists u, cartItems. split; [exact Hwf|].
  destruct (selectBest_cases localeCompare now st u
              {| items := Some cartItems |})
    as [(_ & E') | (r & Hbest & Hin & E')]; rewrite E' in Hpost;
    [discriminate|].
  injection Hpost as _ <- <-.
  apply eligibleCoupons_In in Hin as [Hcat Hsurv].
  split; [exact Hcat|]. split; [exact Hsurv|].
  apply best_In, withDiscounts_In in Hbest. tauto.
Qed.

Lemma postBest_sound_witness :
  exists u cartItems,
    wellFormed Sample.body u cartItems
    /\ In (CouponModel.new (Sample.flat "FLAT100" 100 None None))
         (JsMap.values (coupons Sample.flatStore))
    /\ survives 5 Sample.flatStore u {| items := Some cartItems |}
         (CouponModel.new (Sample.flat "FLAT100" 100 None None))
    /\ 100%Q
       = DiscountService.calculateDiscount
           (CouponModel.new (Sample.flat "FLAT100" 100 None None))
           {| items := Some cartItems |}.
Proof.
  exact (postBest_sound IcuRoot.localeCompare 5 Sample.flatStore _
           Sample.body _ _ eq_refl).
Defined.

(** ** The ranking under any host *)

Section AnyHost.

Variable localeCompare : string -> string -> Z.






End AnyHost.



(** X8. When the host's [localeCompare] is a consistent comparator, so is
    the comparator handed to [Array.prototype.sort]: swapping its
    arguments swaps the sign of the result, and it is zero on a pair
    exactly when the pair agrees on discount and end instant and the
    host compares the two codes as equal. *)
Theorem compareRanked_consistent
    (localeCompare : string -> string -> Z) (a b : Ranked) :
  Collation localeCompare ->
  ((compareRanked localeCompare a b < 0)%Q
   <-> (0 < compareRanked localeCompare b a)%Q)
  /\ ((compareRanked localeCompare a b == 0)%Q
      <-> (discount a == discount b)%Q
          /\ endDate (coupon a) = endDate (coupon b)
          /\ localeCompare (code (coupon a)) (code (coupon b)) = 0%Z).
Proof.
  intros HC. unfold compareRanked.
  destruct (Qeq_bool (discount b) (discount a)) eqn:Ed,
    (Qeq_bool (discount a) (discount b)) eqn:Ed'; simpl;
    repeat match goal with
      | H : Qeq_bool _ _ = true |- _ => apply Qeq_bool_iff in H
      | H : Qeq_bool _ _ = false |- _ => apply Qeq_bool_neq in H
      end;
    try (exfalso; first [apply Ed | apply Ed']; lra).
  - destruct (Z.eqb_spec (endDate (coupon a)) (endDate (coupon b))) as [Ee|Ee],
      (Z.eqb_spec (endDate (coupon b)) (endDate (coupon a))) as [Ee'|Ee'];
      simpl; try congruence.
    + split.
      * change 0%Q with (inject_Z 0). rewrite <- !Zlt_Qlt.
        apply collation_antisym.
      * change 0%Q with (inject_Z 0). rewrite inject_Z_injective. split.
        -- intros H. repeat split; [exact Ed' | exact Ee | exact H].
        -- now intros (_ & _ & H).
    + split.
      * change 0%Q with (inject_Z 0). rewrite <- !Zlt_Qlt. lia.
      * change 0%Q with (inject_Z 0). rewrite inject_Z_injective.
        split; [lia|]. intros (_ & H & _). contradiction.
  - split; [split; intros H; lra|].
    split; [intros H; exfalso; apply Ed; lra|].
    intros (H & _). exfalso. apply Ed. lra.
Qed.

Lemma compareRanked_consistent_witness :
  (compareRanked IcuRoot.localeCompare (Sample.ranked "a") (Sample.ranked "B") < 0)%Q
  <-> (0 < compareRanked IcuRoot.localeCompare (Sample.ranked "B") (Sample.ranked "a"))%Q.
Proof.
  exact (proj1 (compareRanked_consistent IcuRoot.localeCompare
                  (Sample.ranked "a") (Sample.ranked "B") IcuRoot_Collation)).
Defined.

(** ** The two selections side by side *)

Lemma activeCoupons_unlimited (now : Z) (st : Store) (u : UserContext) :
  (forall c, In c (JsMap.values (coupons st)) ->
     forall limit, usageLimitPerUser c = Some limit ->
       (inject_Z (Z.of_nat (Routes.usageCount (userUsage st) (userId u) (code c)))
        < limit)%Q) ->
  Routes.activeCoupons now st u
  = CouponService.filterActiveCoupons now (coupons st) u.
Proof.
  intros Hfree. unfold Routes.activeCoupons, CouponService.filterActiveCoupons.
  apply filter_ext_in. intros c Hc. unfold Routes.keepActive.
  destruct (CouponService.inWindow now c); [|reflexivity].
  destruct (usageLimitPerUser c) as [limit|] eqn:El; [|reflexivity].
  now rewrite (proj2 (js_ge_false _ _) (Hfree c Hc limit El)).
Qed.

(** X9. As long as no coupon of the catalog has reached its per-user
    limit for the requesting user, the selection of [POST /coupons/best]
    answers what [CouponService.findBestCoupon] finds: the same coupon
    with the same discount, and (null, 0) where the service returns
    null. *)
Theorem selectBest_agrees_with_findBestCoupon
    (localeCompare : string -> string -> Z) (now : Z) (st : Store)
    (u : UserContext) (cart : Cart) :
  (forall c, In c (JsMap.values (coupons st)) ->
     forall limit, usageLimitPerUser c = Some limit ->
       (inject_Z (Z.of_nat (Routes.usageCount (userUsage st) (userId u) (code c)))
        < limit)%Q) ->
  snd (Routes.selectBest localeCompare now st u cart)
  = answerOf (CouponService.findBestCoupon localeCompare now (coupons st) u cart).
Proof.
  intros Hfree.
  unfold Routes.selectBest, CouponService.findBestCoupon,
    Routes.eligibleCoupons.
  rewrite (activeCoupons_unlimited now st u Hfree).
  destruct (List.filter _ (CouponService.filterActiveCoupons now (coupons st) u))
    as [|c l]; [reflexivity|].
  destruct (best localeCompare (withDiscounts cart (c :: l))); reflexivity.
Qed.

Lemma selectBest_agrees_with_findBestCoupon_witness :
  snd (Routes.selectBest IcuRoot.localeCompare 5 Sample.limitedStore
         Sample.user Sample.cart)
  = answerOf (CouponService.findBestCoupon IcuRoot.localeCompare 5
                (coupons Sample.limitedStore) Sample.user Sample.cart).
Proof.
  apply (selectBest_agrees_with_findBestCoupon IcuRoot.localeCompare 5
           Sample.limitedStore Sample.user Sample.cart).
  intros c [<- | []] limit [= <-]. reflexivity.
Defined.

(** ** Recording uses *)

Lemma incrementUsage_insert
    (m : gmap string (gmap string nat)) (u k : string) :
  Routes.incrementUsage u k m
  = <[u := <[k := (Routes.usageCount m u k + 1)%nat]> (default ∅ (m !! u))]> m.
Proof.
  unfold Routes.incrementUsage, Routes.usageCount.
  destruct (m !! u) as [inner|] eqn:E; rewrite ?E; simpl; [reflexivity|].
  rewrite lookup_insert_eq. simpl. now rewrite insert_insert_eq.
Qed.

(** X10. Recording uses commutes: recording a use of [k] by [u] and a use
    of [k'] by [u'] leaves the same usage map in either order, also when
    the two users or the two codes coincide. *)
Theorem incrementUsage_commutes
    (m : gmap string (gmap string nat)) (u k u' k' : string) :
  Routes.incrementUsage u k (Routes.incrementUsage u' k' m)
  = Routes.incrementUsage u' k' (Routes.incrementUsage u k m).
Proof.
  rewrite !incrementUsage_insert. unfold Routes.usageCount.
  destruct (decide (u = u')) as [<-|Hu].
  - rewrite !lookup_insert_eq, !insert_insert_eq. simpl. f_equal.
    destruct (decide (k = k')) as [<-|Hk].
    + now rewrite !lookup_insert_eq, !insert_insert_eq.
    + rewrite !lookup_insert_ne by congruence.
      now apply insert_insert_ne.
  - rewrite !lookup_insert_ne by congruence.
    now apply insert_insert_ne.
Qed.

(** ** Edge cases of the eligibility rules *)

(** X11. A user context that comes without [lifetimeSpend] and without
    [ordersPlaced] passes every rule on the purchase history - minimum
    lifetime spend, minimum orders placed, first order only - whatever
    their thresholds: only the tier and country allow-sets decide. *)
Theorem missing_history_passes (e : Eligibility) (u : UserContext) :
  lifetimeSpend u = None -> ordersPlaced u = None ->
  EligibilityService.checkUserEligibility e u = true
  <-> (forall tiers, allowedUserTiers e = Some tiers -> In (userTier u) tiers)
      /\ (forall countries, allowedCountries e = Some countries ->
            In (country u) countries).
Proof.
  intros Hs Ho. rewrite checkUserEligibility_true. unfold userRules.
  rewrite Hs, Ho. simpl. intuition auto.
Qed.

Lemma missing_history_passes_witness :
  EligibilityService.checkUserEligibility Sample.loyalRules Sample.newcomer
  = true.
Proof.
  apply (proj2 (missing_history_passes Sample.loyalRules Sample.newcomer
                  eq_refl eq_refl)).
  split; intros l; discriminate.
Defined.

(** X12. A coupon whose tier or country allow-set is present but empty is
    eligible for nobody, and a coupon with applicable categories is not
    eligible when the list is empty or the cart has no line. *)
Theorem empty_allow_set_rejects (c : Coupon) (u : UserContext) (cart : Cart) :
  allowedUserTiers (eligibility c) = Some []
  \/ allowedCountries (eligibility c) = Some []
  \/ (exists categories,
        applicableCategories (eligibility c) = Some categories
        /\ (categories = [] \/ itemsOf cart = [])) ->
  EligibilityService.checkEligibility c u cart = false.
Proof.
  intros H.
  destruct (EligibilityService.checkEligibility c u cart) eqn:E;
    [|reflexivity].
  exfalso. apply checkEligibility_true in E as [Hu Hc].
  destruct Hu as (Ht & _ & _ & _ & Hco). destruct Hc as (_ & Ha & _).
  destruct H as [H | [H | (categories & H & Hempty)]].
  - exact (Ht [] H).
  - exact (Hco [] H).
  - specialize (Ha categories H).
    apply hasCategory_true in Ha as (item & Hitem & Hin).
    destruct Hempty as [-> | Hnil]; [destruct Hin|].
    rewrite Hnil in Hitem. destruct Hitem.
Qed.

Lemma empty_allow_set_rejects_witness :
  EligibilityService.checkEligibility
    (CouponModel.new (Sample.flat "NOBODY" 100 None (Some Sample.nobodyRules)))
    Sample.user Sample.cart = false.
Proof.
  apply empty_allow_set_rejects. left. reflexivity.
Defined.

(** ** More on the discount *)

Lemma getCartValue_app (l extra : list Item) :
  (forall item, In item extra -> (0 <= unitPrice item * quantity item)%Q) ->
  (DiscountService.getCartValue {| items := Some l |}
   <= DiscountService.getCartValue {| items := Some (l ++ extra)%list |})%Q.
Proof.
  intros H. unfold DiscountService.getCartValue, Js.reduce, itemsOf. simpl.
  rewrite fold_left_app. now apply cartValue_from.
Qed.

(** X13. Adding lines of non-negative price to a cart never lowers the
    discount of a coupon whose discount value is not negative. *)
Theorem calculateDiscount_grows_with_cart
    (c : Coupon) (l extra : list Item) :
  (0 <= discountValue c)%Q ->
  (forall item, In item extra -> (0 <= unitPrice item * quantity item)%Q) ->
  (DiscountService.calculateDiscount c {| items := Some l |}
   <= DiscountService.calculateDiscount c {| items := Some (l ++ extra)%list |})%Q.
Proof.
  intros Hv Hextra. pose proof (getCartValue_app l extra Hextra) as Hcv.
  rewrite !calculateDiscount_unfold.
  set (cv := DiscountService.getCartValue {| items := Some l |}) in *.
  set (cv' := DiscountService.getCartValue {| items := Some (l ++ extra)%list |}) in *.
  assert (Hraw : (cv * discountValue c / 100 <= cv' * discountValue c / 100)%Q).
  { unfold Qdiv. apply Qmult_le_compat_r; [|discriminate].
    now apply Qmult_le_compat_r. }
  apply Q.min_le_compat; [|exact Hcv].
  destruct (String.eqb (discountType c) "FLAT"); [apply Qle_refl|].
  destruct (String.eqb (discountType c) "PERCENT"); [|apply Qle_refl].
  destruct (maxDiscountAmount c) as [cap|]; [|exact Hraw].
  apply Q.min_le_compat; [exact Hraw | apply Qle_refl].
Qed.

Lemma calculateDiscount_grows_with_cart_witness :
  (DiscountService.calculateDiscount
     (CouponModel.new (Sample.percent "P10" 10 None)) Sample.cart
   <= DiscountService.calculateDiscount
        (CouponModel.new (Sample.percent "P10" 10 None))
        {| items := Some (itemsOf Sample.cart ++ [Sample.extraLine])%list |})%Q.
Proof.
  apply (calculateDiscount_grows_with_cart
           (CouponModel.new (Sample.percent "P10" 10 None))
           (itemsOf Sample.cart) [Sample.extraLine]).
  - simpl. discriminate.
  - intros item [<- | []]. simpl. discriminate.
Defined.

(** X14. The cap only acts on PERCENT coupons: the discount of a FLAT
    coupon is the same whatever cap the record carries, and the discount
    of a PERCENT coupon with a cap never exceeds the cap. *)
Theorem cap_acts_on_percent_only (c : Coupon) (cart : Cart) :
  (discountType c = "FLAT" ->
   forall cap,
     DiscountService.calculateDiscount (withMaxDiscountAmount c cap) cart
     = DiscountService.calculateDiscount c cart)
  /\ (discountType c = "PERCENT" ->
      forall cap, maxDiscountAmount c = Some cap ->
        (DiscountService.calculateDiscount c cart <= cap)%Q).
Proof.
  split.
  - intros Hf cap. rewrite !calculateDiscount_unfold. simpl. now rewrite Hf.
  - intros Hp cap Hc. rewrite calculateDiscount_unfold, Hp, Hc. simpl.
    eapply Qle_trans; [apply Q.le_min_l | apply Q.le_min_r].
Qed.

(** ** Using a limited coupon up *)

(** X15. When the catalog holds a single coupon, in its window and
    eligible, and the user's count is the last one below the coupon's
    limit, a selection returns the coupon with its discount and the
    selection repeated right after returns (null, 0) and changes
    nothing. *)
Theorem last_permitted_use
    (localeCompare : string -> string -> Z) (now : Z) (st : Store)
    (u : UserContext) (cart : Cart) (c : Coupon) (limit : Q) :
  coupons st = [(code c, c)] ->
  usageLimitPerUser c = Some limit ->
  (inject_Z (Z.of_nat (Routes.usageCount (userUsage st) (userId u) (code c)))
   < limit)%Q ->
  (limit
   <= inject_Z (Z.of_nat
        (Routes.usageCount (userUsage st) (userId u) (code c) + 1)))%Q ->
  (startDate c <= now <= endDate c)%Z ->
  EligibilityService.checkEligibility c u cart = true ->
  snd (Routes.selectBest localeCompare now st u cart)
  = BestCoupon (Some c) (DiscountService.calculateDiscount c cart)
  /\ Routes.selectBest localeCompare now
       (fst (Routes.selectBest localeCompare now st u cart)) u cart
     = (fst (Routes.selectBest localeCompare now st u cart), BestCoupon None 0).
Proof.
  intros Hcat Hlimit Hbelow Hlast Hw Helig.
  assert (Hkeep : Routes.keepActive now (userUsage st) u c = true).
  { apply keepActive_true. split; [exact Hw|]. intros l. rewrite Hlimit.
    now intros [= <-]. }
  assert (He : Routes.eligibleCoupons now st u cart = [c]).
  { unfold Routes.eligibleCoupons, Routes.activeCoupons, JsMap.values.
    rewrite Hcat. cbn [List.map List.filter snd]. rewrite Hkeep.
    cbn [List.filter]. now rewrite Helig. }
  assert (Hsel : Routes.selectBest localeCompare now st u cart
                 = ({| coupons := coupons st;
                       userUsage :=
                         Routes.incrementUsage (userId u) (code c) (userUsage st) |},
                    BestCoupon (Some c)
                      (DiscountService.calculateDiscount c cart))).
  { unfold Routes.selectBest. rewrite He. reflexivity. }
  rewrite Hsel. cbn [fst snd]. split; [reflexivity|].
  assert (Hdrop : Routes.keepActive now
                    (Routes.incrementUsage (userId u) (code c) (userUsage st))
                    u c = false).
  { unfold Routes.keepActive. rewrite Hlimit, usageCount_incrementUsage_same.
    rewrite (proj2 (js_ge_true _ _) Hlast).
    now destruct (CouponService.inWindow now c). }
  unfold Routes.selectBest, Routes.eligibleCoupons, Routes.activeCoupons,
    JsMap.values.
  cbn [coupons userUsage]. rewrite Hcat. cbn [List.map List.filter snd].
  rewrite Hdrop. reflexivity.
Qed.

Lemma last_permitted_use_witness :
  snd (Routes.selectBest IcuRoot.localeCompare 5 Sample.limitedStore
         Sample.user Sample.cart)
  = BestCoupon
      (Some (CouponModel.new (Sample.flat "LIMITED" 100 (Some 1%Q) None)))
      (DiscountService.calculateDiscount
         (CouponModel.new (Sample.flat "LIMITED" 100 (Some 1%Q) None))
         Sample.cart).
Proof.
  refine (proj1 (last_permitted_use IcuRoot.localeCompare 5 Sample.limitedStore
                   Sample.user Sample.cart
                   (CouponModel.new (Sample.flat "LIMITED" 100 (Some 1%Q) None))
                   1 eq_refl eq_refl _ _ _ eq_refl)).
  - reflexivity.
  - discriminate.
  - simpl. lia.
Defined.

(** ** Submitting a coupon again *)

Lemma set_set {V} (k : string) (v1 v2 : V) (m : JsMap V) :
  JsMap.set k v2 (JsMap.set k v1 m) = JsMap.set k v2 m.
Proof.
  induction m as [|[k0 v0] m IH]; simpl.
  - now rewrite String.eqb_refl.
  - destruct (String.eqb_spec k0 k) as [->|Hne]; simpl.
    + now rewrite String.eqb_refl.
    + destruct (String.eqb_spec k0 k); [contradiction|]. now rewrite IH.
Qed.

(** X16. The last submission wins: after a coupon body and then an
    accepted body with the same code, the store is the one the second
    body alone would have left - same catalog order, same usage counts -
    whether or not the first body was accepted.  In particular sending
    an accepted body twice is the same as sending it once. *)
Theorem postCoupon_last_wins (st : Store) (data1 data2 : CouponData) :
  d_code data1 = d_code data2 ->
  CouponModel.validate data2 = [] ->
  fst (Routes.postCoupon (fst (Routes.postCoupon st data1)) data2)
  = fst (Routes.postCoupon st data2).
Proof.
  intros Hcode Hv2. rewrite !(postCoupon_accepted _ data2 Hv2). simpl.
  destruct (CouponModel.validate data1) as [|e l] eqn:Hv1.
  - rewrite (postCoupon_accepted st data1 Hv1). simpl.
    now rewrite Hcode, set_set.
  - rewrite postCoupon_rejected; [reflexivity | congruence].
Qed.

Lemma postCoupon_last_wins_witness :
  fst (Routes.postCoupon
         (fst (Routes.postCoupon Sample.flatStore
                 (Sample.flat "FLAT50" 60 None None)))
         (Sample.flat "FLAT50" 75 None None))
  = fst (Routes.postCoupon Sample.flatStore (Sample.flat "FLAT50" 75 None None)).
Proof.
  exact (postCoupon_last_wins Sample.flatStore
           (Sample.flat "FLAT50" 60 None None)
           (Sample.flat "FLAT50" 75 None None) eq_refl eq_refl).
Defined.

(** ** The normalisation of categories *)

Lemma toLowerCaseChar_idempotent (c : ascii) :
  Js.toLowerCaseChar (Js.toLowerCaseChar c) = Js.toLowerCaseChar c.
Proof.
  destruct c as [[|] [|] [|] [|] [|] [|] [|] [|]]; reflexivity.
Qed.

Lemma toLowerCase_idempotent (s : string) :
  Js.toLowerCase (Js.toLowerCase s) = Js.toLowerCase s.
Proof.
  induction s as [|c s IH]; simpl; [reflexivity|].
  now rewrite toLowerCaseChar_idempotent, IH.
Qed.

Lemma map_toLowerCase_idempotent (l : list string) :
  List.map Js.toLowerCase (List.map Js.toLowerCase l)
  = List.map Js.toLowerCase l.
Proof.
  rewrite List.map_map. apply map_ext. intros s. apply toLowerCase_idempotent.
Qed.

(** X17. Normalising the rules of a coupon is idempotent, and every
    category stored by the constructor is already in lower case, so the
    cart check compares the lowercased category of a line with stored
    categories that lowercasing would not change. *)
Theorem normalizeEligibility_idempotent (e : Eligibility) :
  CouponModel.normalizeEligibility (CouponModel.normalizeEligibility e)
  = CouponModel.normalizeEligibility e
  /\ (forall data categories cat,
        (applicableCategories (eligibility (CouponModel.new data))
         = Some categories
         \/ excludedCategories (eligibility (CouponModel.new data))
            = Some categories) ->
        In cat categories -> Js.toLowerCase cat = cat).
Proof.
  split.
  - unfold CouponModel.normalizeEligibility. simpl.
    destruct (applicableCategories e), (excludedCategories e); simpl;
      now rewrite ?map_toLowerCase_idempotent.
  - intros data categories cat H Hin. simpl in H.
    assert (Hfix : exists l, categories = List.map Js.toLowerCase l).
    { destruct (d_eligibility data) as [rules|]; simpl in H.
      - destruct H as [H | H].
        + destruct (applicableCategories rules) as [l|]; [|discriminate].
          injection H as <-. now exists l.
        + destruct (excludedCategories rules) as [l|]; [|discriminate].
          injection H as <-. now exists l.
      - destruct H; discriminate. }
    destruct Hfix as (l & ->). apply in_map_iff in Hin as (s & <- & _).
    apply toLowerCase_idempotent.
Qed.

(** ** A used-up coupon stays used up *)

Lemma handle_usage_le
    (localeCompare : string -> string -> Z) (now : Z) (st : Store)
    (req : Request) (u k : string) :
  (Routes.usageCount (userUsage st) u k
   <= Routes.usageCount
        (userUsage (fst (Routes.handle localeCompare now st req))) u k)%nat.
Proof.
  destruct req as [|data|body|]; simpl; try lia.
  - unfold Routes.postCoupon. destruct (_ <? _)%nat; simpl; lia.
  - destruct (postBest_cases localeCompare now st body)
      as [(error & ->) | (u' & cartItems & _ & _ & ->)]; simpl; [lia|].
    destruct (selectBest_cases localeCompare now st u'
                {| items := Some cartItems |})
      as [(_ & ->) | (w & _ & _ & ->)]; simpl; [lia|].
    apply usageCount_incrementUsage_le.
Qed.

Lemma serve_usage_le
    (localeCompare : string -> string -> Z) (reqs : list (Z * Request))
    (st : Store) (u k : string) :
  (Routes.usageCount (userUsage st) u k
   <= Routes.usageCount (userUsage (Routes.serve localeCompare st reqs)) u k)%nat.
Proof.
  revert st. induction reqs as [|[now req] reqs IH]; intros st; simpl; [lia|].
  eapply Nat.le_trans; [apply (handle_usage_le localeCompare now st req)|].
  apply IH.
Qed.

(** X18. Once a user's count has reached the limit of a coupon record,
    no sequence of requests brings that record back for that user: after
    any run of the server, at any instant and for any cart, the selection
    of [POST /coupons/best] for that user does not return that coupon. *)
Theorem used_up_stays_used_up
    (localeCompare : string -> string -> Z) (reqs : list (Z * Request))
    (st : Store) (u : UserContext) (c : Coupon) (limit : Q)
    (now : Z) (cart : Cart) (d : Q) :
  usageLimitPerUser c = Some limit ->
  (limit
   <= inject_Z (Z.of_nat (Routes.usageCount (userUsage st) (userId u) (code c))))%Q ->
  snd (Routes.selectBest localeCompare now
         (Routes.serve localeCompare st reqs) u cart)
  <> BestCoupon (Some c) d.
Proof.
  intros Hlimit Hfull Hsel.
  set (st' := Routes.serve localeCompare st reqs) in *.
  destruct (selectBest_cases localeCompare now st' u cart)
    as [(_ & E) | (w & _ & Hin & E)]; rewrite E in Hsel; [discriminate|].
  simpl in Hsel. injection Hsel as Hc _. rewrite Hc in Hin.
  apply eligibleCoupons_In in Hin as [_ (_ & Hbelow & _)].
  specialize (Hbelow limit Hlimit).
  pose proof (serve_usage_le localeCompare reqs st (userId u) (code c)) as Hle.
  fold st' in Hle.
  assert (Hq : (inject_Z (Z.of_nat
                   (Routes.usageCount (userUsage st) (userId u) (code c)))
                <= inject_Z (Z.of_nat
                     (Routes.usageCount (userUsage st') (userId u) (code c))))%Q).
  { rewrite <- Zle_Qle. lia. }
  lra.
Qed.

Lemma used_up_stays_used_up_witness :
  snd (Routes.selectBest IcuRoot.localeCompare 9
         (Routes.serve IcuRoot.localeCompare
            (fst (Routes.selectBest IcuRoot.localeCompare 5 Sample.limitedStore
                    Sample.user Sample.cart))
            [(6%Z, GetCoupons); (7%Z, PostBest Sample.body)])
         Sample.user Sample.cart)
  <> BestCoupon
       (Some (CouponModel.new (Sample.flat "LIMITED" 100 (Some 1%Q) None)))
       100.
Proof.
  apply (used_up_stays_used_up IcuRoot.localeCompare
           [(6%Z, GetCoupons); (7%Z, PostBest Sample.body)]
           (fst (Routes.selectBest IcuRoot.localeCompare 5 Sample.limitedStore
                   Sample.user Sample.cart))
           Sample.user
           (CouponModel.new (Sample.flat "LIMITED" 100 (Some 1%Q) None))
           1 9 Sample.cart 100 eq_refl).
  vm_compute. discriminate.
Defined.

(** ** A candidate that strictly leads wins in every catalog order *)

(** X19. Under a consistent host, a candidate that no other candidate
    precedes in the ranking order (discount, end instant, code) is the
    winner, wherever it stands in the list of candidates. *)
Theorem strict_leader_wins
    (localeCompare : string -> string -> Z) (l : list Ranked) (w : Ranked) :
  Collation localeCompare ->
  In w l ->
  (forall y, In y l -> precedes localeCompare y w -> y = w) ->
  best localeCompare l = Some w.
Proof.
  intros HC Hw Hlead.
  assert (Htotal : forall x y : Ranked,
             keepsFirst (compareRanked localeCompare) x y
             \/ keepsFirst (compareRanked localeCompare) y x).
  { intros x y. rewrite !compareRanked_precedes.
    exact (@precedes_total localeCompare HC x y). }
  assert (Htrans : forall x y z : Ranked,
             keepsFirst (compareRanked localeCompare) x y ->
             keepsFirst (compareRanked localeCompare) y z ->
             keepsFirst (compareRanked localeCompare) x z).
  { intros x y z. rewrite !compareRanked_precedes.
    exact (@precedes_trans localeCompare HC x y z). }
  unfold best, rank.
  destruct (sort_nonempty (compareRanked localeCompare) l) as [w' Hw'].
  { intros ->. destruct Hw. }
  rewrite Hw'. f_equal.
  destruct (sort_head_least _ Htotal Htrans l w' Hw') as [Hin Hleast].
  apply Hlead; [exact Hin|].
  apply compareRanked_precedes. now apply Hleast.
Qed.

Lemma strict_leader_wins_witness :
  best IcuRoot.localeCompare [Sample.ranked "Z_COUPON"; Sample.ranked "A_COUPON"]
  = Some (Sample.ranked "A_COUPON").
Proof.
  apply (strict_leader_wins IcuRoot.localeCompare
           [Sample.ranked "Z_COUPON"; Sample.ranked "A_COUPON"]
           (Sample.ranked "A_COUPON") IcuRoot_Collation).
  - right. now left.
  - intros y [<- | [<- | []]] H; [|reflexivity].
    exfalso. destruct H as [H | (_ & [H | (_ & H)])].
    + vm_compute in H. discriminate.
    + vm_compute in H. discriminate.
    + vm_compute in H. apply H. reflexivity.
Defined.
